(** * CO-Monitor-Gateway: frame decoding, extraction, parsing, de-duplication
      and rate-limited forwarding

    A shallow embedding of the XBee receive path and of the ThingSpeak
    forwarder of the repository, followed by the properties of the design
    document that were checked against it.

    Conventions.
    - A byte is an [N]; a [bytearray] is a [list N].  The code only ever
      builds byte arrays from the serial port, so every element is below 256;
      where a property needs that bound it is stated.
    - Wall-clock readings ([time.time()]) and durations are rationals ([Q]);
      binary rounding of the Python floats is not modelled.
    - A Python [str] is the list of its code points; the literals of the
      source are written as ASCII strings and converted. *)

From Stdlib Require Import NArith ZArith QArith Lia List Bool Ascii String.
From Stdlib Require Import Lqa Qround.
From Equations Require Import Equations.
From stdpp Require Import gmap strings.
Import ListNotations.

Open Scope N_scope.

(** ** Part 1, [rec_API_more_diag copy.py]: class [APIReceiver] *)

Module Part1.

(** XBee API frame markers. *)
Definition START_DELIMITER : N := 0x7E.
Definition ESCAPE : N := 0x7D.
Definition XON : N := 0x11.
Definition XOFF : N := 0x13.

(** API frame types. *)
Definition RX_PACKET_64 : N := 0x80.
Definition RX_PACKET_16 : N := 0x81.
Definition RX_PACKET : N := 0x90.

(** [data[i]] for an index known to be in range. *)
Definition at_index (data : list N) (i : nat) : N := nth i data 0.

(** [data[a:b]]. *)
Definition slice (data : list N) (a b : nat) : list N :=
  firstn (b - a) (skipn a data).

(** [frame_length = (self.buffer[1] << 8) | self.buffer[2]]. *)
Definition frame_length (buffer : list N) : N :=
  N.lor (N.shiftl (at_index buffer 1) 8) (at_index buffer 2).

(** [total_frame_size = frame_length + 4]. *)
Definition total_frame_size (buffer : list N) : nat :=
  N.to_nat (frame_length buffer + 4).

(** The accumulation [for i in range(3, total_frame_size - 1): checksum += frame[i]]. *)
Definition sum_range (frame : list N) (lo hi : nat) : N :=
  fold_left (fun acc i => acc + at_index frame i) (seq lo (hi - lo)) 0.

(** [checksum = 0xFF - (checksum & 0xFF)] after the accumulation. *)
Definition frame_checksum (frame : list N) (total : nat) : N :=
  0xFF - N.land (sum_range frame 3 (total - 1)) 0xFF.

(** The [while len(self.buffer) > 3] loop of [_read_api_frame], on the
    buffer as it stands after the new bytes were appended.  The result is the
    returned frame data ([None] when the function returns [None]) and the
    buffer left behind. *)
Equations? read_loop (buffer : list N) : option (list N) * list N
  by wf (length buffer) lt :=
  read_loop buffer with lt_dec 3 (length buffer) => {
    | right _ => (None, buffer)
    | left _ with N.eq_dec (at_index buffer 0) START_DELIMITER => {
      | right _ => read_loop (tl buffer)
      | left _ with lt_dec (length buffer) 3 => {
        | left _ => (None, buffer)
        | right _ with lt_dec (length buffer) (total_frame_size buffer) => {
          | left _ => (None, buffer)
          | right _ with N.eq_dec
                (frame_checksum (firstn (total_frame_size buffer) buffer)
                                (total_frame_size buffer))
                (List.last (firstn (total_frame_size buffer) buffer) 0) => {
            | right _ => read_loop (skipn (total_frame_size buffer) buffer)
            | left _ =>
                (Some (slice (firstn (total_frame_size buffer) buffer)
                             3 (total_frame_size buffer - 1)),
                 skipn (total_frame_size buffer) buffer) } } } } }.
Proof.
  all: try (destruct buffer; simpl in *; lia).
  all: rewrite length_skipn; unfold total_frame_size in *; lia.
Qed.

(** [_read_api_frame]: [uart] is what the serial port holds when the
    function is called; an empty port makes the function return at once. *)
Definition _read_api_frame (buffer uart : list N) : option (list N) * list N :=
  match uart with
  | [] => (None, buffer)
  | _ :: _ => read_loop (buffer ++ uart)
  end.

(** The index loop of [_unescape_data]: [i] is the cursor and [result] the
    bytes appended so far. *)
Equations? unescape_from (data : list N) (i : nat) (result : list N) : list N
  by wf (length data - i)%nat lt :=
  unescape_from data i result with lt_dec i (length data) => {
    | right _ => result
    | left _ with N.eq_dec (at_index data i) ESCAPE => {
      | left _ with lt_dec (i + 1) (length data) => {
        | left _ =>
            unescape_from data (i + 2)
              (result ++ [N.lxor (at_index data (i + 1)) 0x20])
        | right _ => unescape_from data (i + 1) result }
      | right _ => unescape_from data (i + 1) (result ++ [at_index data i]) } }.
Proof. all: lia. Qed.

Definition _unescape_data (data : list N) : list N := unescape_from data 0 [].

(** *** [bytes.decode('utf-8')]

    The strict decoder: shortest forms only, no surrogates, nothing above
    U+10FFFF.  The result is the list of code points, [None] standing for
    [UnicodeDecodeError]. *)

Definition in_range (lo hi b : N) : bool := (lo <=? b) && (b <=? hi).

Definition continuation (b : N) : bool := in_range 0x80 0xBF b.

Definition low6 (b : N) : N := N.land b 0x3F.

Fixpoint utf8_decode (bs : list N) : option (list N) :=
  match bs with
  | [] => Some []
  | b0 :: t0 =>
    if b0 <? 0x80 then option_map (cons b0) (utf8_decode t0)
    else if in_range 0xC2 0xDF b0 then
      match t0 with
      | b1 :: t1 =>
        if continuation b1
        then option_map (cons (N.shiftl (N.land b0 0x1F) 6 + low6 b1))
                        (utf8_decode t1)
        else None
      | _ => None
      end
    else if in_range 0xE0 0xEF b0 then
      match t0 with
      | b1 :: b2 :: t2 =>
        if in_range (if b0 =? 0xE0 then 0xA0 else 0x80)
                    (if b0 =? 0xED then 0x9F else 0xBF) b1
           && continuation b2
        then option_map
               (cons (N.shiftl (N.land b0 0x0F) 12 + N.shiftl (low6 b1) 6
                      + low6 b2))
               (utf8_decode t2)
        else None
      | _ => None
      end
    else if in_range 0xF0 0xF4 b0 then
      match t0 with
      | b1 :: b2 :: b3 :: t3 =>
        if in_range (if b0 =? 0xF0 then 0x90 else 0x80)
                    (if b0 =? 0xF4 then 0x8F else 0xBF) b1
           && continuation b2 && continuation b3
        then option_map
               (cons (N.shiftl (N.land b0 0x07) 18 + N.shiftl (low6 b1) 12
                      + N.shiftl (low6 b2) 6 + low6 b3))
               (utf8_decode t3)
        else None
      | _ => None
      end
    else None
  end.

(** [_process_rx_packet]: the text carried by a receive frame, [None] for
    every path on which the function returns [None]. *)
Definition _process_rx_packet (frame_data : list N) : option (list N) :=
  if (length frame_data <? 1)%nat then None
  else
    let frame_type := at_index frame_data 0 in
    if frame_type =? RX_PACKET then
      if (length frame_data <? 12)%nat then None
      else utf8_decode (skipn 12 frame_data)
    else if frame_type =? RX_PACKET_16 then
      if (length frame_data <? 5)%nat then None
      else utf8_decode (skipn 5 frame_data)
    else if frame_type =? RX_PACKET_64 then
      if (length frame_data <? 11)%nat then None
      else utf8_decode (skipn 11 frame_data)
    else None.

End Part1.

(** ** Part 2, [thingspeak_api_receiver.py]: [verify_received_frame] *)

Module Part2.

(** [verify_received_frame]: the validity flag and the two checksums of the
    returned tuple ([None] where the code returns [None]); the text decoded
    for display, its fourth component, is left out. *)
Definition verify_received_frame (frame_bytes : list N)
  : bool * option N * option N :=
  if (length frame_bytes <? 5)%nat then (false, None, None)
  else
    let start_delimiter := Part1.at_index frame_bytes 0 in
    let length_msb := Part1.at_index frame_bytes 1 in
    let length_lsb := Part1.at_index frame_bytes 2 in
    let length_field := N.shiftl length_msb 8 + length_lsb in
    if negb (start_delimiter =? 0x7E) then (false, None, None)
    else if negb (length frame_bytes =? N.to_nat (length_field + 4))%nat
    then (false, None, None)
    else
      let frame_data := Part1.slice frame_bytes 3 (length frame_bytes - 1) in
      let received_checksum := List.last frame_bytes 0 in
      let checksum := fold_left N.add frame_data 0 in
      let calculated_checksum := 0xFF - N.land checksum 0xFF in
      (calculated_checksum =? received_checksum,
       Some calculated_checksum, Some received_checksum).

End Part2.

(** ** Python text and [float()] *)

Module Py.

(** A [str] is the list of its code points. *)
Definition str : Type := list N.

(** The [str] written by an ASCII literal. *)
Definition lit (s : string) : str :=
  map N_of_ascii (list_ascii_of_string s).

(** [s.startswith(prefix)]. *)
Fixpoint startswith (s prefix : str) : bool :=
  match prefix, s with
  | [], _ => true
  | p :: prefix', c :: s' => (c =? p) && startswith s' prefix'
  | _ :: _, [] => false
  end.

(** [s.split(sep)] for a one-character separator: never empty, empty
    pieces kept. *)
Fixpoint split (sep : N) (s : str) : list str :=
  match s with
  | [] => [[]]
  | c :: s' =>
    if c =? sep then [] :: split sep s'
    else match split sep s' with
         | piece :: pieces => (c :: piece) :: pieces
         | [] => [[c]]
         end
  end.

(** Exceptions that the parser can meet, and computations that may raise. *)
Inductive exn := IndexError | ValueError.

Definition result (A : Type) : Type := exn + A.

Definition ret {A} (x : A) : result A := inr x.
Definition raise {A} (e : exn) : result A := inl e.
Definition bind {A B} (m : result A) (k : A -> result B) : result B :=
  match m with
  | inl e => inl e
  | inr x => k x
  end.

(** [l[i]]: [IndexError] out of range. *)
Definition index {A} (l : list A) (i : nat) : result A :=
  match nth_error l i with
  | Some x => ret x
  | None => raise IndexError
  end.

(** The value of a Python float: the exact rational that was written, or
    one of the special values. *)
Inductive pyfloat :=
| Finite (q : Q)
| Infinity (negative : bool)
| NotANumber.

Definition is_digit (c : N) : bool := (48 <=? c) && (c <=? 57).

Definition digit_value (c : N) : Z := Z.of_N (c - 48).

(** White space stripped by [float()] from an ASCII text: tab, line feed,
    vertical tab, form feed, carriage return and space. *)
Definition is_space (c : N) : bool :=
  ((9 <=? c) && (c <=? 13)) || (c =? 32).

Fixpoint lstrip (s : str) : str :=
  match s with
  | c :: s' => if is_space c then lstrip s' else s
  | [] => []
  end.

Definition strip (s : str) : str := rev (lstrip (rev (lstrip s))).

(** ASCII lower case of one character. *)
Definition lower (c : N) : N :=
  if (65 <=? c) && (c <=? 90) then c + 32 else c.

(** [digit (["_"] digit)*] after a first digit was seen: the digits read
    and what follows them. *)
Fixpoint digits_tail (s : str) : list N * str :=
  match s with
  | c :: s' =>
    if is_digit c then
      let (ds, rest) := digits_tail s' in (c :: ds, rest)
    else if c =? 95 then
      match s' with
      | d :: s'' =>
        if is_digit d then
          let (ds, rest) := digits_tail s'' in (d :: ds, rest)
        else ([], s)
      | [] => ([], s)
      end
    else ([], s)
  | [] => ([], [])
  end.

(** A digit part; no digits and the whole input when there is none. *)
Definition digitpart (s : str) : list N * str :=
  match s with
  | c :: s' =>
    if is_digit c then
      let (ds, rest) := digits_tail s' in (c :: ds, rest)
    else ([], s)
  | [] => ([], [])
  end.

Definition digits_value (ds : list N) : Z :=
  fold_left (fun acc d => 10 * acc + digit_value d)%Z ds 0%Z.

(** An optional sign: [true] for minus, and the rest. *)
Definition sign (s : str) : bool * str :=
  match s with
  | 43 :: s' => (false, s')
  | 45 :: s' => (true, s')
  | _ => (false, s)
  end.

(** An optional exponent: its value and the rest; [None] when an [e] is not
    followed by a digit part. *)
Definition exponent (s : str) : option (Z * str) :=
  match s with
  | c :: s' =>
    if lower c =? 101 then
      let (neg, s1) := sign s' in
      match digitpart s1 with
      | ([], _) => None
      | (ds, rest) =>
        Some ((if neg then - digits_value ds else digits_value ds)%Z, rest)
      end
    else Some (0%Z, s)
  | [] => Some (0%Z, [])
  end.

(** [m * 10^e] as a rational. *)
Definition scale10 (m e : Z) : Q :=
  match e with
  | Zneg p => Qmake m (10 ^ p)
  | _ => Qmake (m * 10 ^ e) 1
  end.

(** An unsigned decimal number with optional fraction and exponent. *)
Definition floatnumber (s : str) : option Q :=
  let (ip, s1) := digitpart s in
  let '(fp, s2) :=
    match s1 with
    | 46 :: s1' => digitpart s1'
    | _ => ([], s1)
    end in
  match ip, fp with
  | [], [] => None
  | _, _ =>
    match exponent s2 with
    | Some (e, []) =>
      Some (scale10 (digits_value (ip ++ fp)) (e - Z.of_nat (length fp)))
    | _ => None
    end
  end.

(** The least magnitude that is read as infinity: halfway between the
    largest float, [2^1024 - 2^971], and [2^1024]. *)
Definition OVERFLOW : Q :=
  inject_Z 179769313486231580793728971405303415079934132710037826936173778980444968292764750946649017977587207096330286416692887910946555547851940402630657488671505820681908902000708383676273854845817711531764475730270069855571366959622842914819860834936475292719074168444365510704342711559699508093042880177904174497792.

(** [float(s)] for a [str]; [None] stands for [ValueError].  The ASCII
    forms are covered: surrounding white space, a sign, [inf], [infinity]
    and [nan] in any case, decimal digits with single underscores between
    them, a fraction, an exponent; a number too large for a float is
    infinity.  (Python also takes the digits and spaces of other scripts; a
    text with a character outside ASCII is refused here.) *)
Definition float_of_str (s : str) : option pyfloat :=
  let (neg, body) := sign (strip s) in
  let word := map lower body in
  if decide (word = lit "inf") then Some (Infinity neg)
  else if decide (word = lit "infinity") then Some (Infinity neg)
  else if decide (word = lit "nan") then Some NotANumber
  else match floatnumber body with
       | Some q =>
         Some (if Qle_bool OVERFLOW q then Infinity neg
               else Finite (if neg then - q else q)%Q)
       | None => None
       end.

Definition float (s : str) : result pyfloat :=
  match float_of_str s with
  | Some v => ret v
  | None => raise ValueError
  end.

(** [round(x, 2)]: the nearest multiple of 1/100, a tie going to the even
    one; infinities and nan are returned as they are. *)
Definition round_half_even (q : Q) : Z :=
  let below := Qfloor q in
  match (q - inject_Z below ?= 1 # 2)%Q with
  | Lt => below
  | Gt => (below + 1)%Z
  | Eq => if Z.even below then below else (below + 1)%Z
  end.

Definition round2 (x : pyfloat) : pyfloat :=
  match x with
  | Finite q => Finite (Qmake (round_half_even (q * 100)) 100)
  | Infinity negative => Infinity negative
  | NotANumber => NotANumber
  end.

(** A value handed back by a library call, as far as the tests of the
    callers tell values apart: [None], a [bool], an [int], a [float], a
    [str], or a [dict] or [list]. *)
Inductive pyvalue :=
| PyNone
| PyBool (b : bool)
| PyInt (z : Z)
| PyFloat (x : pyfloat)
| PyText (s : str)
| PyContainer.

(** [value == 0]: numbers compare by value, [False] is 0, and nothing else
    equals 0; a [str] never does, whatever it spells. *)
Definition eq_zero (value : pyvalue) : bool :=
  match value with
  | PyBool b => negb b
  | PyInt z => (z =? 0)%Z
  | PyFloat (Finite q) => Qeq_bool q 0
  | _ => false
  end.

End Py.

(** ** [thingspeak_api_receiver.py] *)

Module Gateway.

Import Py.

Definition Qltb (x y : Q) : bool := negb (Qle_bool y x).

(** *** class [ThingSpeakClient] *)

Record ThingSpeakClient := {
  channel_id : string;
  write_api_key : string;
  last_update_time : Q;
  min_interval : Q
}.

(** [ThingSpeakClient.__init__]. *)
Definition ThingSpeakClient_init (channel_id write_api_key : string)
  : ThingSpeakClient :=
  {| channel_id := channel_id;
     write_api_key := write_api_key;
     last_update_time := 0;
     min_interval := 20 |}.

Definition set_last_update_time (self : ThingSpeakClient) (t : Q)
  : ThingSpeakClient :=
  {| channel_id := channel_id self;
     write_api_key := write_api_key self;
     last_update_time := t;
     min_interval := min_interval self |}.

(** What [send_data] does to the outside, in order. *)
Inductive effect :=
| Sleep (wait_time : Q)
| ChannelUpdate (field1 field2 field3 field4 : Q).

(** What [self.channel.update(data)] does: it returns a response or raises.
    The method belongs to the [thingspeak] package, which hands back the body
    of the server's answer; the response is whatever value that is. *)
Inductive upstream :=
| Responds (response : pyvalue)
| Raises.

(** [send_data].  [current_time] is the clock read on entry, [sent_time]
    the clock read after a successful update.  The result is the client
    afterwards, the returned value and the effects in the order they
    happen. *)
Definition send_data (self : ThingSpeakClient)
    (temperature humidity ppm temperatureF : Q)
    (current_time : Q) (sink : upstream) (sent_time : Q)
  : ThingSpeakClient * option pyvalue * list effect :=
  let waits :=
    if Qltb (current_time - last_update_time self) (min_interval self)
    then [Sleep (min_interval self - (current_time - last_update_time self))]
    else [] in
  let trace := waits ++ [ChannelUpdate temperature humidity ppm temperatureF] in
  match sink with
  | Raises => (self, None, trace)
  | Responds response =>
    if eq_zero response then (self, None, trace)
    else (set_last_update_time self sent_time, Some response, trace)
  end.

(** *** class [APIReceiver] *)

(** The argument of [parse_data]: a [str], or a [bytearray] still to be
    decoded. *)
Inductive py_data :=
| PyStr (s : str)
| PyByteArray (b : list N).

(** [(temperature, humidity, ppm)]. *)
Definition reading : Type := pyfloat * pyfloat * pyfloat.

Notation "'let*' x ':=' m 'in' k" := (bind m (fun x => k))
  (at level 10, x name, m at level 100, k at level 200).

(** The body of [parse_data] inside its [try]. *)
Definition parse_data_body (data_string : py_data) : result (option reading) :=
  let* data_string :=
    match data_string with
    | PyStr s => ret s
    | PyByteArray b =>
      match Part1.utf8_decode b with
      | Some s => ret s
      | None => raise ValueError
      end
    end in
  if negb (startswith data_string (lit "DATA:")) then ret None
  else
    let parts := split 44 data_string in
    let* temp_part := index parts 0 in
    let* temp_text := index (split 58 temp_part) 2 in
    let* temperature := float temp_text in
    let* hum_part := index parts 1 in
    let* hum_text := index (split 58 hum_part) 1 in
    let* humidity := float hum_text in
    let* ppm_part := index parts 2 in
    let* ppm_text := index (split 58 ppm_part) 1 in
    let* ppm := float ppm_text in
    ret (Some (temperature, humidity, ppm)).

(** [parse_data]: [except (IndexError, ValueError)] turns both into [None]. *)
Definition parse_data (data_string : py_data) : option reading :=
  match parse_data_body data_string with
  | inr r => r
  | inl IndexError => None
  | inl ValueError => None
  end.

(** A message handed over by the radio library. *)
Record XBeeMessage := {
  data : list N;
  remote_device : string
}.

Definition isalnum (c : ascii) : bool :=
  let n := N_of_ascii c in
  ((48 <=? n) && (n <=? 57)) || ((65 <=? n) && (n <=? 90))
  || ((97 <=? n) && (n <=? 122)).

Definition upper (c : ascii) : ascii :=
  let n := N_of_ascii c in
  if (97 <=? n) && (n <=? 122) then ascii_of_N (n - 32) else c.

(** [''.join(c for c in raw_address if c.isalnum()).upper()], for an
    ASCII address. *)
Fixpoint sender_of (raw_address : string) : string :=
  match raw_address with
  | EmptyString => EmptyString
  | String c rest =>
    if isalnum c then String (upper c) (sender_of rest) else sender_of rest
  end.

(** [round((temperature * 9/5) + 32, 2)]. *)
Definition fahrenheit (temperature : pyfloat) : pyfloat :=
  round2 match temperature with
         | Finite q => Finite (q * 9 / 5 + 32)%Q
         | Infinity negative => Infinity negative
         | NotANumber => NotANumber
         end.

(** What the callbacks put on the queue: the tuple
    [(temperature, humidity, ppm, temperatureF)] of the single-slot callback
    and the tuple [(sender, temperature, humidity, ppm, temperatureF)] of the
    per-node callback. *)
Inductive queue_item :=
| Values (temperature humidity ppm temperatureF : pyfloat)
| NodeValues (sender : string)
             (temperature humidity ppm temperatureF : pyfloat).

(** The attributes of the receiver that de-duplication and the hand-over to
    the upload loop read.  An attribute that [hasattr] may find missing is an
    [option]; the two per-node dictionaries are created empty on first use,
    which is how they start here.  The queue holds the tuples put by the
    callback, oldest first.  The attributes that are only written (the last
    values, [node_data]) and the console and log output are left out. *)
Record APIReceiver := {
  last_frame_id : option (list N);
  last_frame_time : option Q;
  last_frame_ids : gmap string (list N);
  last_frame_times : gmap string Q;
  data_queue : option (list queue_item)
}.

(** A receiver fresh from [__init__]. *)
Definition APIReceiver_init : APIReceiver :=
  {| last_frame_id := None;
     last_frame_time := None;
     last_frame_ids := ∅;
     last_frame_times := ∅;
     data_queue := None |}.

(** How a callback invocation ends. *)
Inductive outcome :=
| Suppressed
| Raised
| Processed (result : option reading).

(** [if hasattr(self, 'data_queue'): self.data_queue.put(...)]. *)
Definition put (self : APIReceiver) (item : queue_item) : APIReceiver :=
  {| last_frame_id := last_frame_id self;
     last_frame_time := last_frame_time self;
     last_frame_ids := last_frame_ids self;
     last_frame_times := last_frame_times self;
     data_queue := option_map (fun q => q ++ [item]) (data_queue self) |}.

(** The duplicate test of [_data_received_callback]. *)
Definition is_duplicate (self : APIReceiver) (frame_identifier : list N)
    (current_time : Q) : bool :=
  match last_frame_id self, last_frame_time self with
  | Some id, Some t =>
    bool_decide (id = frame_identifier) && Qltb (current_time - t) 1
  | _, _ => false
  end.

(** [_data_received_callback].  [current_time] is the clock read by the
    call. *)
Definition _data_received_callback (self : APIReceiver)
    (xbee_message : XBeeMessage) (current_time : Q) : APIReceiver * outcome :=
  let data_payload := data xbee_message in
  let frame_identifier := data_payload in
  if is_duplicate self frame_identifier current_time then (self, Suppressed)
  else
    let self :=
      {| last_frame_id := Some frame_identifier;
         last_frame_time := Some current_time;
         last_frame_ids := last_frame_ids self;
         last_frame_times := last_frame_times self;
         data_queue := data_queue self |} in
    match Part1.utf8_decode data_payload with
    | None => (self, Raised)
    | Some _ =>
      match parse_data (PyByteArray data_payload) with
      | Some (temperature, humidity, ppm) =>
        let temperatureF := fahrenheit temperature in
        (put self (Values temperature humidity ppm temperatureF),
         Processed (Some (temperature, humidity, ppm)))
      | None => (self, Processed None)
      end
    end.

(** The duplicate test of [_data_received_callback_multi]. *)
Definition is_duplicate_multi (self : APIReceiver) (sender : string)
    (data_payload : list N) (current_time : Q) : bool :=
  match last_frame_ids self !! sender, last_frame_times self !! sender with
  | Some id, Some t =>
    bool_decide (id = data_payload) && Qltb (current_time - t) 1
  | _, _ => false
  end.

(** [_data_received_callback_multi]. *)
Definition _data_received_callback_multi (self : APIReceiver)
    (xbee_message : XBeeMessage) (current_time : Q) : APIReceiver * outcome :=
  let data_payload := data xbee_message in
  let sender := sender_of (remote_device xbee_message) in
  if is_duplicate_multi self sender data_payload current_time
  then (self, Suppressed)
  else
    let self :=
      {| last_frame_id := last_frame_id self;
         last_frame_time := last_frame_time self;
         last_frame_ids := <[sender := data_payload]> (last_frame_ids self);
         last_frame_times := <[sender := current_time]> (last_frame_times self);
         data_queue := data_queue self |} in
    match parse_data (PyByteArray data_payload) with
    | Some (temperature, humidity, ppm) =>
      let temperatureF := fahrenheit temperature in
      (put self (NodeValues sender temperature humidity ppm temperatureF),
       Processed (Some (temperature, humidity, ppm)))
    | None => (self, Processed None)
    end.

(** *** [process_thingspeak_data]: the upload loop

    [data_buffer] and [last_upload_time] are the locals of the loop; the
    batches that were averaged are kept in [averaged], oldest first;
    [ended] says that the loop was left through its [except] clause. *)
Record uploader := {
  data_buffer : list queue_item;
  last_upload_time : Q;
  averaged : list (list queue_item);
  ended : bool
}.

(** The period in [current_time - last_upload_time >= 15]. *)
Definition UPLOAD_PERIOD : Q := 15.

(** One successful [self.data_queue.get] followed by
    [data_buffer.append(new_data)]; nothing happens on [queue.Empty]. *)
Definition get (self : APIReceiver) (u : uploader) : APIReceiver * uploader :=
  match data_queue self with
  | Some (new_data :: rest) =>
    ({| last_frame_id := last_frame_id self;
        last_frame_time := last_frame_time self;
        last_frame_ids := last_frame_ids self;
        last_frame_times := last_frame_times self;
        data_queue := Some rest |},
     {| data_buffer := data_buffer u ++ [new_data];
        last_upload_time := last_upload_time u;
        averaged := averaged u;
        ended := ended u |})
  | _ => (self, u)
  end.

(** [if current_time - last_upload_time >= 15 and data_buffer:]. *)
Definition upload_due (u : uploader) (current_time : Q) : bool :=
  Qle_bool UPLOAD_PERIOD (current_time - last_upload_time u)
  && negb (Nat.eqb (length (data_buffer u)) 0).

(** Whether [sum(point[0] for point in data_buffer)] can add up the first
    components: those of the 4-tuples are floats, that of a 5-tuple is the
    sender's text, and adding it raises [TypeError]. *)
Definition summable (point : queue_item) : bool :=
  match point with
  | Values _ _ _ _ => true
  | NodeValues _ _ _ _ _ => false
  end.

(** The averaging branch: the whole buffer is averaged (and the averages
    handed to [send_data]), then the time is noted and the buffer cleared,
    whether or not the send succeeded.  When the first sum raises, the
    [except] clause around the loop is reached before anything is noted or
    cleared, and the loop is over. *)
Definition upload (u : uploader) (current_time : Q) : uploader :=
  if upload_due u current_time then
    if forallb summable (data_buffer u) then
      {| data_buffer := [];
         last_upload_time := current_time;
         averaged := averaged u ++ [data_buffer u];
         ended := ended u |}
    else
      {| data_buffer := data_buffer u;
         last_upload_time := last_upload_time u;
         averaged := averaged u;
         ended := true |}
  else u.

End Gateway.

(** ** Part 1, [rec_API_more_diag copy.py]: parsing and [update] *)

Module Part1App.

Import Py.

(** [(temperature, humidity, ppm)]. *)
Definition reading : Type := pyfloat * pyfloat * pyfloat.

Notation "'let*' x ':=' m 'in' k" := (bind m (fun x => k))
  (at level 10, x name, m at level 100, k at level 200).

(** The body of [parse_data_string] inside its [try]. *)
Definition parse_data_string_body (data_string : str) : result (option reading) :=
  if negb (startswith data_string (lit "DATA:")) then ret None
  else
    let parts := split 44 data_string in
    let* temp_part := index parts 0 in
    let* temp_text := index (split 58 temp_part) 2 in
    let* temperature := float temp_text in
    let* hum_part := index parts 1 in
    let* hum_text := index (split 58 hum_part) 1 in
    let* humidity := float hum_text in
    let* ppm_part := index parts 2 in
    let* ppm_text := index (split 58 ppm_part) 1 in
    let* ppm := float ppm_text in
    ret (Some (temperature, humidity, ppm)).

(** [parse_data_string]: [except (IndexError, ValueError)] gives [None]. *)
Definition parse_data_string (data_string : str) : option reading :=
  match parse_data_string_body data_string with
  | inr r => r
  | inl IndexError => None
  | inl ValueError => None
  end.

(** The attributes of the Part 1 receiver that [update] reads and writes. *)
Record APIReceiver := {
  temperature : pyfloat;
  humidity : pyfloat;
  ppm : pyfloat;
  last_received_time : Q;
  buffer : list N
}.

(** The attributes after [__init__]. *)
Definition APIReceiver_init : APIReceiver :=
  {| temperature := Finite 0;
     humidity := Finite 0;
     ppm := Finite 0;
     last_received_time := 0;
     buffer := [] |}.

Definition set_buffer (self : APIReceiver) (b : list N) : APIReceiver :=
  {| temperature := temperature self;
     humidity := humidity self;
     ppm := ppm self;
     last_received_time := last_received_time self;
     buffer := b |}.

(** [update]: [uart] is what the serial port holds, [now] the clock read
    when a reading is stored.  An empty frame and an empty text are falsy
    and end the call like [None] does. *)
Definition update (self : APIReceiver) (uart : list N) (now : Q)
  : APIReceiver * bool :=
  let (frame_data, buffer') := Part1._read_api_frame (buffer self) uart in
  let self := set_buffer self buffer' in
  match frame_data with
  | Some ((_ :: _) as frame_data) =>
    match Part1._process_rx_packet frame_data with
    | Some ((_ :: _) as data_string) =>
      match parse_data_string data_string with
      | Some (t, h, p) =>
        ({| temperature := t;
            humidity := h;
            ppm := p;
            last_received_time := now;
            buffer := buffer self |}, true)
      | None => (self, false)
      end
    | _ => (self, false)
    end
  | _ => (self, false)
  end.

End Part1App.

(** ** [thingspeak_api_receiver.py]: [decode_ao_mode] *)

Module GatewayInfo.

(** [AO_FLAGS], in the order the dictionary is written. *)
Definition AO_FLAGS : list (N * string) :=
  [(0, "Explicit RX Indicator (0x91) enabled");
   (1, "Supported ZDO request pass-through");
   (2, "Unsupported ZDO request pass-through");
   (3, "Binding request pass-through");
   (4, "Echo received supported ZDO requests");
   (5, "Suppress all ZDO messages and disable pass-through")]%string.

(** [decode_ao_mode]. *)
Definition decode_ao_mode (value : N) : string :=
  if value =? 0 then "Legacy mode (0x90 packets)"%string
  else
    String.concat ", "
      (map snd
         (List.filter
            (fun flag => negb (N.land value (N.shiftl 1 (fst flag)) =? 0))
            AO_FLAGS)).

End GatewayInfo.

(** * Specification-side definitions *)

(** [sum(payload bytes)]. *)
Definition payload_sum (payload : list N) : N := fold_right N.add 0 payload.

(** The checksum byte that the wire format prescribes for a payload. *)
Definition expected_checksum (payload : list N) : N :=
  0xFF - N.land (payload_sum payload) 0xFF.

(** A complete frame: delimiter, big-endian length, payload, trailing byte. *)
Definition wire_frame (hi lo : N) (payload : list N) (trailing : N) : list N :=
  Part1.START_DELIMITER :: hi :: lo :: payload ++ [trailing].

(** The frames that a caller collects. *)
Definition frames_of {A} (returned : option A) : list A :=
  match returned with
  | Some frame => [frame]
  | None => []
  end.

(** One call of [_read_api_frame] per incoming byte; the buffer is carried
    from call to call and every returned frame is collected. *)
Fixpoint feed_bytewise (buffer bytes : list N) : list (list N) * list N :=
  match bytes with
  | [] => ([], buffer)
  | b :: bytes' =>
    let (returned, buffer') := Part1._read_api_frame buffer [b] in
    let (later, final) := feed_bytewise buffer' bytes' in
    (frames_of returned ++ later, final)
  end.

(** One call of [_read_api_frame] with the whole sequence in the port. *)
Definition feed_at_once (buffer bytes : list N) : list (list N) * list N :=
  let (returned, buffer') := Part1._read_api_frame buffer bytes in
  (frames_of returned, buffer').

(** The decoding loop run again and again on the buffer until it returns
    [None]; [fuel] bounds the number of runs. *)
Fixpoint drain_fuel (fuel : nat) (buffer : list N) : list (list N) * list N :=
  match fuel with
  | O => ([], buffer)
  | S fuel' =>
    match Part1.read_loop buffer with
    | (Some frame, rest) =>
      let (later, final) := drain_fuel fuel' rest in (frame :: later, final)
    | (None, rest) => ([], rest)
    end
  end.

(** A frame takes at least four bytes, so the length of the buffer is fuel
    enough. *)
Definition drain (buffer : list N) : list (list N) * list N :=
  drain_fuel (length buffer) buffer.

(** Unescaping as the design document words it: an escape byte consumes
    the byte after it, which is XORed with [0x20]; other bytes are copied.
    An escape byte with nothing after it contributes nothing. *)
Fixpoint unescape_list (data : list N) : list N :=
  match data with
  | [] => []
  | x :: rest =>
    if x =? Part1.ESCAPE then
      match rest with
      | b :: rest' => N.lxor b 0x20 :: unescape_list rest'
      | [] => []
      end
    else x :: unescape_list rest
  end.

(** Whether a left-to-right scan of [data] ends on an escape byte that is
    still waiting for the byte it escapes. *)
Fixpoint escape_pending (data : list N) : bool :=
  match data with
  | [] => false
  | x :: rest =>
    if x =? Part1.ESCAPE then
      match rest with
      | _ :: rest' => escape_pending rest'
      | [] => true
      end
    else escape_pending rest
  end.

(** Where the application data starts according to the design document:
    the type byte, then 8 + 1 bytes for the 64-bit variant, 2 + 1 for the
    16-bit variant and 8 + 2 + 1 for the generic one. *)
Definition documented_data_offset (frame_type : N) : option nat :=
  if frame_type =? Part1.RX_PACKET_64 then Some (1 + 8 + 1)%nat
  else if frame_type =? Part1.RX_PACKET_16 then Some (1 + 2 + 1)%nat
  else if frame_type =? Part1.RX_PACKET then Some (1 + 8 + 2 + 1)%nat
  else None.

(** Where it starts in [_process_rx_packet], which is also the least
    length that it accepts. *)
Definition data_offset (frame_type : N) : option nat :=
  if frame_type =? Part1.RX_PACKET_64 then Some 11%nat
  else if frame_type =? Part1.RX_PACKET_16 then Some 5%nat
  else if frame_type =? Part1.RX_PACKET then Some 12%nat
  else None.

(** A delivery: the message and the clock reading of the callback. *)
Record event := {
  message : Gateway.XBeeMessage;
  arrival : Q
}.

(** A callback run over deliveries in order of arrival: the receiver at the
    end and how each invocation ended. *)
Definition run
    (callback : Gateway.APIReceiver -> Gateway.XBeeMessage -> Q ->
                Gateway.APIReceiver * Gateway.outcome)
    (self : Gateway.APIReceiver) (events : list event)
  : Gateway.APIReceiver * list Gateway.outcome :=
  fold_left
    (fun '(self, outcomes) e =>
       let (self', o) := callback self (message e) (arrival e) in
       (self', outcomes ++ [o]))
    events (self, []).

Definition suppressed (o : Gateway.outcome) : bool :=
  match o with
  | Gateway.Suppressed => true
  | _ => false
  end.

(** The most recent delivery among those selected by [mine] that was
    retained, that is, not suppressed. *)
Definition last_retained (mine : event -> bool)
    (log : list (event * Gateway.outcome)) : option event :=
  fold_left
    (fun found '(e, o) => if mine e && negb (suppressed o) then Some e else found)
    log None.

(** The deliveries that belong to the key [k]. *)
Definition of_key {K : Type} `{EqDecision K}
    (key : Gateway.XBeeMessage -> K) (k : K) (e : event) : bool :=
  bool_decide (key (message e) = k).

(** The sender key of a delivery, as the per-node callback computes it. *)
Definition sender (e : event) : string :=
  Gateway.sender_of (Gateway.remote_device (message e)).

(** The suppression rule of the design document, against the retained
    delivery [previous]. *)
Definition duplicate_of (previous : option event) (e : event) : Prop :=
  match previous with
  | Some p =>
    Gateway.data (message p) = Gateway.data (message e)
    /\ (arrival e - arrival p < 1)%Q
  | None => False
  end.

(** The same message delivered [n] times, once every 0.9 seconds. *)
Definition stream (m : Gateway.XBeeMessage) (n : nat) : list event :=
  map (fun k => {| message := m; arrival := (9 * Z.of_nat k) # 10 |}) (seq 0 n).

(** The keys of the two callbacks: none for the single-slot one, the
    cleaned-up sender address for the per-node one. *)
Definition key_single (_ : Gateway.XBeeMessage) : unit := tt.

Definition key_multi (m : Gateway.XBeeMessage) : string :=
  Gateway.sender_of (Gateway.remote_device m).

(** The retained message that a callback compares with, per key: the pair
    of attributes for the single-slot callback, the two dictionary entries
    for the per-node one. *)
Definition slot_single (self : Gateway.APIReceiver) (_ : unit)
  : option (list N * Q) :=
  match Gateway.last_frame_id self, Gateway.last_frame_time self with
  | Some id, Some t => Some (id, t)
  | _, _ => None
  end.

Definition slot_multi (self : Gateway.APIReceiver) (node : string)
  : option (list N * Q) :=
  match Gateway.last_frame_ids self !! node,
        Gateway.last_frame_times self !! node with
  | Some id, Some t => Some (id, t)
  | _, _ => None
  end.

(** Whether the three comma-separated fields carry the labels of the
    grammar [DATA:TEMP:<float>,HUM:<float>,PPM:<float>], in that order. *)
Definition labels_in_order (s : Py.str) : bool :=
  match Py.split 44 s with
  | [f0; f1; f2] =>
    match Py.split 58 f0, Py.split 58 f1, Py.split 58 f2 with
    | [d; l0; _], [l1; _], [l2; _] =>
      bool_decide (d = Py.lit "DATA") && bool_decide (l0 = Py.lit "TEMP")
      && bool_decide (l1 = Py.lit "HUM") && bool_decide (l2 = Py.lit "PPM")
    | _, _, _ => false
    end
  | _ => false
  end.

(** Text without comma and colon. *)
Definition plain (s : Py.str) : Prop := Forall (fun c => c <> 44 /\ c <> 58) s.

(** [DATA:l0:v0,l1:v1,l2:v2]. *)
Definition data_text (l0 v0 l1 v1 l2 v2 : Py.str) : Py.str :=
  Py.lit "DATA:" ++ l0 ++ [58] ++ v0 ++ [44]
  ++ l1 ++ [58] ++ v1 ++ [44] ++ l2 ++ [58] ++ v2.

(** Two nodes reporting the same text. *)
Definition node_a_message : Gateway.XBeeMessage :=
  {| Gateway.data := Py.lit "DATA:TEMP:26,HUM:28,PPM:1421194";
     Gateway.remote_device := "0013A20042010917" |}.

Definition node_b_message : Gateway.XBeeMessage :=
  {| Gateway.data := Py.lit "DATA:TEMP:26,HUM:28,PPM:1421194";
     Gateway.remote_device := "0013A200420108EB" |}.

Definition node_reading : Gateway.reading :=
  (Py.Finite (26 # 1), Py.Finite (28 # 1), Py.Finite (1421194 # 1)).

(** What the single-slot callback puts on the queue for that text, and what
    the per-node callback puts for it when node A sent it. *)
Definition node_values : Gateway.queue_item :=
  Gateway.Values (Py.Finite (26 # 1)) (Py.Finite (28 # 1))
                 (Py.Finite (1421194 # 1)) (Py.Finite (7880 # 100)).

Definition node_a_values : Gateway.queue_item :=
  Gateway.NodeValues "0013A20042010917"
                     (Py.Finite (26 # 1)) (Py.Finite (28 # 1))
                     (Py.Finite (1421194 # 1)) (Py.Finite (7880 # 100)).


Definition item_multi (e : event) (r : Gateway.reading) : Gateway.queue_item :=
  let '(temperature, humidity, ppm) := r in
  Gateway.NodeValues (sender e) temperature humidity ppm
                     (Gateway.fahrenheit temperature).

(** The tuples that a run of deliveries leaves on the queue: one for every
    delivery that ended with a parsed reading, in order. *)
Definition queued (item : event -> Gateway.reading -> Gateway.queue_item)
    (log : list (event * Gateway.outcome)) : list Gateway.queue_item :=
  flat_map
    (fun '(e, o) =>
       match o with
       | Gateway.Processed (Some r) => [item e r]
       | _ => []
       end)
    log.

(** The queue operations of the two threads, taken one at a time: a
    callback puts a reading, the upload loop gets one, the upload loop reaches
    its time check with the clock at [current_time].  A loop that has ended
    takes no further step. *)
Inductive action :=
| Put (r : Gateway.queue_item)
| Get
| Tick (current_time : Q).

Definition act (state : Gateway.APIReceiver * Gateway.uploader) (a : action)
  : Gateway.APIReceiver * Gateway.uploader :=
  let (self, u) := state in
  match a with
  | Put r => (Gateway.put self r, u)
  | Get => if Gateway.ended u then state else Gateway.get self u
  | Tick current_time =>
    if Gateway.ended u then state else (self, Gateway.upload u current_time)
  end.

(** The readings put on the queue by a sequence of operations. *)
Definition puts (actions : list action) : list Gateway.queue_item :=
  flat_map (fun a => match a with Put r => [r] | _ => [] end) actions.

(** Every reading that has been put, in order: averaged, buffered, queued. *)
Definition accounted (state : Gateway.APIReceiver * Gateway.uploader)
  : list Gateway.queue_item :=
  concat (Gateway.averaged (snd state)) ++ Gateway.data_buffer (snd state)
  ++ match Gateway.data_queue (fst state) with
     | Some q => q
     | None => []
     end.

(** A buffer on which the loop has nothing to do before more bytes come. *)
Definition stuck (buffer : list N) : Prop :=
  Part1.read_loop buffer = (None, buffer).

(** The frame that the wire format prescribes for a payload: the length
    in two bytes, most significant first, and the checksum behind. *)
Definition encode_frame (payload : list N) : list N :=
  wire_frame (N.of_nat (length payload) / 256) (N.of_nat (length payload) mod 256)
             payload (expected_checksum payload).

(** The bytes that an escaping transport escapes: the markers that the
    receiver names. *)
Definition needs_escape (b : N) : bool :=
  (b =? Part1.START_DELIMITER) || (b =? Part1.ESCAPE)
  || (b =? Part1.XON) || (b =? Part1.XOFF).

(** Escaping as the radio does it: a byte to escape becomes the escape byte
    followed by the byte XORed with [0x20]. *)
Definition escape_list (data : list N) : list N :=
  flat_map (fun b => if needs_escape b then [Part1.ESCAPE; N.lxor b 0x20] else [b])
           data.

(** The clock readings at which the upload loop reached its time check. *)
Definition ticks (actions : list action) : list Q :=
  flat_map (fun a => match a with Tick t => [t] | _ => [] end) actions.

(** How long [send_data] sleeps. *)
Definition wait_time (self : Gateway.ThingSpeakClient) (current_time : Q) : Q :=
  if Gateway.Qltb (current_time - Gateway.last_update_time self)
                  (Gateway.min_interval self)
  then Gateway.min_interval self
       - (current_time - Gateway.last_update_time self)
  else 0.

(** Text made of ASCII characters only. *)
Fixpoint is_ascii (s : string) : bool :=
  match s with
  | EmptyString => true
  | String c rest => (N_of_ascii c <? 128) && is_ascii rest
  end.

(** * Properties *)

(** ** Checks on concrete inputs *)

Example parse_swapped_labels :
  Gateway.parse_data (Gateway.PyStr (Py.lit "DATA:TEMP:26,PPM:1,HUM:28"))
  = Some (Py.Finite (26 # 1), Py.Finite (1 # 1), Py.Finite (28 # 1)).
Proof. reflexivity. Qed.

Example parse_rejects :
  map (fun s => Gateway.parse_data (Gateway.PyStr (Py.lit s)))
      ["DATA:TEMP:abc,HUM:28,PPM:1"; "HUM:28,PPM:1"; "DATA:TEMP:26,HUM:28";
       "DATA:26,HUM:28,PPM:1"]%string
  = repeat None 4.
Proof. reflexivity. Qed.

Example callback_accepts :
  snd (Gateway._data_received_callback_multi Gateway.APIReceiver_init
         node_a_message 5)
  = Gateway.Processed (Some node_reading).
Proof. vm_compute. reflexivity. Qed.

Example float_forms :
  map Py.float_of_str
      [Py.lit " -1_0.25e1 "; Py.lit "26"; Py.lit "1."; Py.lit ".5";
       Py.lit "-Inf"; Py.lit "1E-2"]
  = [Some (Py.Finite (- (1025 # 10))); Some (Py.Finite (26 # 1));
     Some (Py.Finite (1 # 1)); Some (Py.Finite (5 # 10));
     Some (Py.Infinity true); Some (Py.Finite (1 # 100))].
Proof. reflexivity. Qed.

Example float_rejects :
  map Py.float_of_str
      [Py.lit "abc"; Py.lit ""; Py.lit "."; Py.lit "1_"; Py.lit "1e";
       Py.lit "1 2"; Py.lit "--1"]
  = repeat None 7.
Proof. reflexivity. Qed.

Example float_overflow_and_separators :
  map Py.float_of_str
      [Py.lit "1e400"; Py.lit "-1e400"; Py.lit "1e308"; 28 :: Py.lit "26";
       Py.lit "26" ++ [31]; 12 :: Py.lit "26"]
  = [Some (Py.Infinity false); Some (Py.Infinity true);
     Some (Py.Finite (Qmake (10 ^ 308) 1)); None; None;
     Some (Py.Finite (26 # 1))].
Proof. vm_compute. reflexivity. Qed.

Example callbacks_queue_tuples :
  let self :=
    {| Gateway.last_frame_id := None; Gateway.last_frame_time := None;
       Gateway.last_frame_ids := ∅; Gateway.last_frame_times := ∅;
       Gateway.data_queue := Some [] |} in
  Gateway.data_queue
    (fst (Gateway._data_received_callback self node_a_message 5))
  = Some [node_values]
  /\ Gateway.data_queue
       (fst (Gateway._data_received_callback_multi self node_a_message 5))
     = Some [node_a_values].
Proof. vm_compute. split; reflexivity. Qed.

Example fahrenheit_rounds :
  map Gateway.fahrenheit
      [Py.Finite (26 # 1); Py.Finite (2612 # 100); Py.Finite (- (40 # 1));
       Py.Infinity true; Py.NotANumber]
  = [Py.Finite (7880 # 100); Py.Finite (7902 # 100); Py.Finite (- (4000 # 100));
     Py.Infinity true; Py.NotANumber].
Proof. vm_compute. reflexivity. Qed.

Example split_keeps_empty_pieces :
  Py.split 44 (Py.lit "a,,b,") = [Py.lit "a"; []; Py.lit "b"; []].
Proof. reflexivity. Qed.

Example unescape_example :
  Part1._unescape_data [1; 0x7D; 0x5E; 2; 0x7D] = [1; 0x7E; 2].
Proof. reflexivity. Qed.

Example extract_ascii :
  Part1._process_rx_packet [0x81; 0; 1; 40; 0; 0x41; 0x42] = Some [0x41; 0x42].
Proof. reflexivity. Qed.

Example extract_euro_sign :
  Part1._process_rx_packet [0x81; 0; 1; 40; 0; 0xE2; 0x82; 0xAC]
  = Some [0x20AC].
Proof. reflexivity. Qed.

Example one_frame_per_call :
  Part1._read_api_frame [] [0x7E; 0; 1; 0; 0xFF; 0x7E; 0; 1; 0; 0xFF]
  = (Some [0], [0x7E; 0; 1; 0; 0xFF]).
Proof. reflexivity. Qed.


(** ** The frame decoder *)

Section FrameDecoder.

Import Part1.

Lemma read_loop_short (buffer : list N) :
  (length buffer <= 3)%nat -> read_loop buffer = (None, buffer).
Proof.
  intros H. rewrite read_loop_equation_1.
  destruct (lt_dec 3 (length buffer)); [lia | reflexivity].
Qed.

Lemma read_loop_noise (b : N) (buffer : list N) :
  (3 <= length buffer)%nat -> b <> START_DELIMITER ->
  read_loop (b :: buffer) = read_loop buffer.
Proof.
  intros H Hb. rewrite read_loop_equation_1. simpl.
  destruct (lt_dec 3 (S (length buffer))); [| lia]. simpl.
  destruct (N.eq_dec (at_index (b :: buffer) 0) START_DELIMITER) as [E | E];
    [contradiction | reflexivity].
Qed.

Lemma read_loop_partial (buffer : list N) :
  (3 < length buffer)%nat -> at_index buffer 0 = START_DELIMITER ->
  (length buffer < total_frame_size buffer)%nat ->
  read_loop buffer = (None, buffer).
Proof.
  intros H E L. rewrite read_loop_equation_1.
  destruct (lt_dec 3 (length buffer)); [| lia]. simpl.
  destruct (N.eq_dec (at_index buffer 0) START_DELIMITER); [| contradiction].
  simpl. destruct (lt_dec (length buffer) 3); [lia |]. simpl.
  destruct (lt_dec (length buffer) (total_frame_size buffer)); [| lia].
  reflexivity.
Qed.

Lemma read_loop_complete (buffer : list N) :
  (3 < length buffer)%nat -> at_index buffer 0 = START_DELIMITER ->
  (total_frame_size buffer <= length buffer)%nat ->
  read_loop buffer =
  let total := total_frame_size buffer in
  let frame := firstn total buffer in
  if frame_checksum frame total =? List.last frame 0
  then (Some (slice frame 3 (total - 1)), skipn total buffer)
  else read_loop (skipn total buffer).
Proof.
  intros H E L. rewrite read_loop_equation_1.
  destruct (lt_dec 3 (length buffer)); [| lia]. simpl.
  destruct (N.eq_dec (at_index buffer 0) START_DELIMITER); [| contradiction].
  simpl. destruct (lt_dec (length buffer) 3); [lia |]. simpl.
  destruct (lt_dec (length buffer) (total_frame_size buffer)); [lia |].
  simpl.
  destruct (N.eq_dec _ _) as [C | C]; simpl.
  - apply N.eqb_eq in C. rewrite C. reflexivity.
  - apply N.eqb_neq in C. rewrite C. reflexivity.
Qed.

Lemma sum_range_app (pre payload post : list N) (acc : N) :
  fold_left (fun a i => a + at_index (pre ++ payload ++ post) i)
            (seq (length pre) (length payload)) acc
  = acc + payload_sum payload.
Proof.
  revert pre acc. induction payload as [| x payload IH]; intros pre acc.
  - simpl. lia.
  - cbn [length seq fold_left payload_sum fold_right].
    replace (at_index (pre ++ (x :: payload) ++ post) (length pre)) with x.
    + specialize (IH (pre ++ [x]) (acc + x)).
      rewrite length_app in IH. simpl in IH.
      replace (length pre + 1)%nat with (S (length pre)) in IH by lia.
      rewrite <- app_assoc in IH. simpl in IH. simpl.
      rewrite IH. fold (payload_sum payload). lia.
    + unfold at_index. rewrite app_nth2 by lia.
      rewrite Nat.sub_diag. reflexivity.
Qed.

Lemma frame_last (hi lo trailing : N) (payload : list N) : List.last (wire_frame hi lo payload trailing) 0 = trailing.
Proof.
  unfold wire_frame.
  change (START_DELIMITER :: hi :: lo :: payload ++ [trailing])
    with ((START_DELIMITER :: hi :: lo :: payload) ++ [trailing]).
  apply last_last.
Qed.

Lemma frame_slice (hi lo trailing : N) (payload : list N) :
  slice (wire_frame hi lo payload trailing) 3 (length payload + 4 - 1) = payload.
Proof.
  unfold slice, wire_frame. simpl skipn.
  replace (length payload + 4 - 1 - 3)%nat with (length payload) by lia.
  change (drop 0 (payload ++ [trailing])) with (payload ++ [trailing]).
  rewrite firstn_app, Nat.sub_diag, firstn_all. simpl. apply app_nil_r.
Qed.

Section Frame.

Variables (hi lo trailing : N) (payload rest : list N).
Hypothesis length_field :
  N.lor (N.shiftl hi 8) lo = N.of_nat (length payload).

Let buffer := wire_frame hi lo payload trailing ++ rest.

Lemma frame_total : total_frame_size buffer = (length payload + 4)%nat.
Proof.
  unfold total_frame_size, frame_length, buffer, wire_frame, at_index.
  simpl. rewrite length_field. lia.
Qed.

Lemma frame_firstn :
  firstn (length payload + 4) buffer = wire_frame hi lo payload trailing.
Proof.
  unfold buffer. rewrite firstn_app.
  replace (length (wire_frame hi lo payload trailing)) with (length payload + 4)%nat
    by (unfold wire_frame; simpl; rewrite length_app; simpl; lia).
  rewrite Nat.sub_diag. simpl firstn at 2. rewrite app_nil_r.
  apply firstn_all2. unfold wire_frame. simpl. rewrite length_app. simpl. lia.
Qed.

Lemma frame_skipn : skipn (length payload + 4) buffer = rest.
Proof.
  unfold buffer. rewrite skipn_app.
  replace (length (wire_frame hi lo payload trailing)) with (length payload + 4)%nat
    by (unfold wire_frame; simpl; rewrite length_app; simpl; lia).
  rewrite Nat.sub_diag. simpl skipn at 2.
  rewrite skipn_all2; [reflexivity |].
  unfold wire_frame. simpl. rewrite length_app. simpl. lia.
Qed.

Lemma frame_checksum_expected :
  frame_checksum (wire_frame hi lo payload trailing) (length payload + 4)
  = expected_checksum payload.
Proof.
  unfold frame_checksum, expected_checksum, sum_range.
  replace (length payload + 4 - 1 - 3)%nat with (length payload) by lia.
  pose proof (sum_range_app [START_DELIMITER; hi; lo] payload [trailing] 0) as S.
  simpl in S. unfold wire_frame. rewrite S. reflexivity.
Qed.

Lemma read_loop_frame :
  read_loop buffer =
  if expected_checksum payload =? trailing
  then (Some payload, rest)
  else read_loop rest.
Proof.
  rewrite read_loop_complete.
  - cbv zeta. rewrite frame_total, frame_firstn, frame_skipn, frame_last,
      frame_slice, frame_checksum_expected. reflexivity.
  - unfold buffer, wire_frame. simpl. rewrite length_app, length_app. simpl. lia.
  - reflexivity.
  - rewrite frame_total. unfold buffer, wire_frame. simpl.
    rewrite length_app, length_app. simpl. lia.
Qed.

End Frame.

(** The stand-alone verifier of Part 2 applies the same test to every
    frame that carries at least one payload byte; it refuses anything
    shorter than five bytes, the frame with an empty payload included. *)
Lemma verifier_agrees (hi lo trailing : N) (payload : list N) :
  N.shiftl hi 8 + lo = N.of_nat (length payload) ->
  payload <> [] ->
  Part2.verify_received_frame (wire_frame hi lo payload trailing)
  = (expected_checksum payload =? trailing,
     Some (expected_checksum payload), Some trailing).
Proof.
  intros Hlen Hne. unfold Part2.verify_received_frame.
  assert (L : length (wire_frame hi lo payload trailing)
              = (length payload + 4)%nat)
    by (unfold wire_frame; simpl; rewrite length_app; simpl; lia).
  rewrite L.
  destruct payload as [| p payload]; [contradiction |].
  replace (length (p :: payload) + 4 <? 5)%nat with false
    by (symmetry; apply Nat.ltb_ge; simpl; lia).
  replace (at_index (wire_frame hi lo (p :: payload) trailing) 0)
    with START_DELIMITER by reflexivity.
  replace (at_index (wire_frame hi lo (p :: payload) trailing) 1)
    with hi by reflexivity.
  replace (at_index (wire_frame hi lo (p :: payload) trailing) 2)
    with lo by reflexivity.
  rewrite Hlen. cbn [negb N.eqb START_DELIMITER Pos.eqb].
  replace (N.to_nat (N.of_nat (length (p :: payload)) + 4))
    with (length (p :: payload) + 4)%nat by lia.
  rewrite Nat.eqb_refl. cbn [negb].
  pose proof (frame_slice hi lo trailing (p :: payload)) as Sl.
  rewrite Sl, frame_last.
  replace (fold_left N.add (p :: payload) 0) with (payload_sum (p :: payload)).
  - reflexivity.
  - unfold payload_sum. symmetry. apply fold_symmetric; intros; lia.
Qed.

Example verifier_rejects_empty_payload :
  Part2.verify_received_frame (wire_frame 0 0 [] 0xFF) = (false, None, None).
Proof. reflexivity. Qed.

Lemma length_field_sum (hi lo : N) :
  lo < 256 -> N.lor (N.shiftl hi 8) lo = N.shiftl hi 8 + lo.
Proof.
  intros B.
  assert (D : N.land (N.shiftl hi 8) lo = 0).
  { apply N.bits_inj. intros k. rewrite N.land_spec, N.bits_0.
    destruct (N.lt_ge_cases k 8) as [L | L].
    - rewrite N.shiftl_spec_low by exact L. reflexivity.
    - rewrite <- (N.mod_small lo 256) by exact B.
      change 256 with (2 ^ 8). rewrite N.mod_pow2_bits_high by exact L.
      apply andb_false_r. }
  rewrite <- N.lxor_lor by exact D. symmetry.
  apply N.add_nocarry_lxor. exact D.
Qed.

(** C1, as the code has it.  A buffer that holds a complete frame (new bytes
    included) followed by [rest].  A call that finds nothing on the port
    returns [None] and leaves the buffer alone.  A call that finds bytes
    returns the payload and keeps [rest] when the trailing byte is
    [0xFF - (sum(payload) & 0xFF)], and otherwise drops the frame and goes on
    with [rest] alone; when the frame is all there is, the payload is
    returned if and only if the trailing byte has that value, and a frame
    with any other trailing byte gives [None] and an empty buffer.  The
    stand-alone verifier of Part 2 reports the frame as valid if and only if
    the trailing byte has that value and the payload is not empty. *)
Theorem frame_accepted_iff_checksum
    (hi lo trailing : N) (payload buffer uart rest : list N) :
  lo < 256 ->
  N.lor (N.shiftl hi 8) lo = N.of_nat (length payload) ->
  buffer ++ uart = wire_frame hi lo payload trailing ++ rest ->
  _read_api_frame buffer uart
  = match uart with
    | [] => (None, buffer)
    | _ :: _ =>
      if expected_checksum payload =? trailing
      then (Some payload, rest) else read_loop rest
    end
  /\ (uart <> [] -> rest = [] ->
      (_read_api_frame buffer uart = (Some payload, [])
       <-> trailing = expected_checksum payload)
      /\ (trailing <> expected_checksum payload ->
          _read_api_frame buffer uart = (None, [])))
  /\ (fst (fst (Part2.verify_received_frame
                  (wire_frame hi lo payload trailing))) = true
      <-> payload <> [] /\ trailing = expected_checksum payload).
Proof.
  intros Hlo Hlen Hbuf.
  assert (E : _read_api_frame buffer uart
              = match uart with
                | [] => (None, buffer)
                | _ :: _ =>
                  if expected_checksum payload =? trailing
                  then (Some payload, rest) else read_loop rest
                end).
  { unfold _read_api_frame. destruct uart as [| u uart']; [reflexivity |].
    rewrite Hbuf. apply read_loop_frame. exact Hlen. }
  split; [exact E |]. split.
  - intros Huart ->. rewrite E.
    destruct uart as [| u uart']; [contradiction |].
    rewrite (read_loop_short []) by (simpl; lia).
    destruct (N.eqb_spec (expected_checksum payload) trailing) as [C | C].
    + split; [split; auto | congruence].
    + split; [split; [discriminate | congruence] | reflexivity].
  - destruct payload as [| p payload].
    + change (Part2.verify_received_frame (wire_frame hi lo [] trailing))
        with (false, @None N, @None N).
      cbn [fst]. split; [discriminate | intros [C _]; contradiction].
    + rewrite verifier_agrees;
        [| rewrite <- length_field_sum by exact Hlo; exact Hlen | discriminate].
      cbn [fst]. rewrite N.eqb_eq.
      split; [intros C; split; [discriminate | congruence] |
              intros [_ C]; congruence].
Qed.

Lemma frame_accepted_iff_checksum_witness :
  (Part1._read_api_frame [0x7E; 0] [1; 0x41; 0xBE] = (Some [0x41], [])
   <-> 0xBE = expected_checksum [0x41])
  /\ (fst (fst (Part2.verify_received_frame (wire_frame 0 1 [0x41] 0xBE)))
      = true
      <-> [0x41] <> [] /\ 0xBE = expected_checksum [0x41]).
Proof.
  pose proof (frame_accepted_iff_checksum
                0 1 0xBE [0x41] [0x7E; 0] [1; 0x41; 0xBE] []
                eq_refl eq_refl eq_refl) as (_ & One & Two).
  split; [| exact Two].
  apply One; [discriminate | reflexivity].
Defined.

(** C1, as stated, fails.  The frame [7E 00 00 FF] is complete and its
    trailing byte is the checksum of its empty payload, yet the verifier of
    Part 2, which refuses every frame shorter than five bytes, reports it as
    not valid.  And the decoder of Part 1, called while the port holds no new
    byte, returns [None] although the buffer holds a complete frame with the
    right trailing byte. *)
Lemma complete_frame_counterexample :
  (0xFF = expected_checksum []
   /\ Part2.verify_received_frame (wire_frame 0 0 [] 0xFF)
      = (false, None, None))
  /\ (0xBE = expected_checksum [0x41]
      /\ Part1._read_api_frame (wire_frame 0 1 [0x41] 0xBE) []
         = (None, wire_frame 0 1 [0x41] 0xBE)).
Proof. repeat split. Qed.

(** X16.  The stand-alone verifier of Part 2 reports a frame as valid
    exactly when the bytes are: the start delimiter, two length bytes that
    give the number of payload bytes, at least one payload byte, and the
    checksum byte that the payload prescribes; nothing else passes. *)
Theorem verifier_accepts_exactly_frames (frame_bytes : list N) :
  fst (fst (Part2.verify_received_frame frame_bytes)) = true
  <-> exists hi lo payload,
        payload <> []
        /\ N.shiftl hi 8 + lo = N.of_nat (length payload)
        /\ frame_bytes = wire_frame hi lo payload (expected_checksum payload).
Proof.
  split.
  - intros V. unfold Part2.verify_received_frame in V.
    destruct (length frame_bytes <? 5)%nat eqn:L5; [discriminate V |].
    apply Nat.ltb_ge in L5.
    destruct frame_bytes as [| d [| hi [| lo rest]]]; try (simpl in L5; lia).
    destruct (exists_last (l := rest)) as (payload & tr & ->).
    { intros ->. simpl in L5. lia. }
    cbv zeta in V. unfold at_index in V. cbn [nth] in V.
    destruct (N.eqb_spec d 0x7E) as [-> | _]; [| discriminate V].
    cbn [negb] in V.
    change (0x7E :: hi :: lo :: payload ++ [tr])
      with (wire_frame hi lo payload tr) in *.
    assert (L : length (wire_frame hi lo payload tr) = (length payload + 4)%nat)
      by (unfold wire_frame; simpl; rewrite length_app; simpl; lia).
    rewrite L in V, L5.
    destruct (Nat.eqb_spec (length payload + 4)
                           (N.to_nat (N.shiftl hi 8 + lo + 4))) as [Len | _];
      [| discriminate V].
    cbn [negb] in V. rewrite frame_slice, frame_last in V. cbn [fst] in V.
    apply N.eqb_eq in V.
    exists hi, lo, payload. split; [| split].
    + intros ->. simpl in L5. lia.
    + lia.
    + rewrite <- V. unfold expected_checksum, payload_sum.
      rewrite (fold_symmetric N.add) by (intros; lia). reflexivity.
  - intros (hi & lo & payload & Hne & Hlen & ->).
    rewrite verifier_agrees by assumption. cbn [fst]. apply N.eqb_refl.
Qed.

(** *** Restarting the loop *)

Ltac loop_cases buffer :=
  destruct (le_lt_dec (length buffer) 3) as [Hshort | Hlong];
  [| destruct (N.eq_dec (at_index buffer 0) START_DELIMITER) as [Hstart | Hnoise];
     [destruct (lt_dec (length buffer) (total_frame_size buffer))
        as [Hpartial | Hcomplete] |]].

Lemma read_loop_shrinks (buffer : list N) :
  (length (snd (read_loop buffer)) <= length buffer)%nat
  /\ (forall frame, fst (read_loop buffer) = Some frame ->
      (length (snd (read_loop buffer)) + 4 <= length buffer)%nat).
Proof.
  induction buffer as [buffer IH] using (induction_ltof1 _ (@length N)).
  unfold ltof in IH.
  destruct (le_lt_dec (length buffer) 3) as [S | L].
  { rewrite read_loop_short by exact S. simpl. split; [lia | discriminate]. }
  destruct (N.eq_dec (at_index buffer 0) START_DELIMITER) as [E | E].
  - destruct (lt_dec (length buffer) (total_frame_size buffer)) as [P | C].
    + rewrite read_loop_partial by assumption. simpl. split; [lia | discriminate].
    + rewrite read_loop_complete by (assumption || lia). cbv zeta.
      assert (T : (4 <= total_frame_size buffer)%nat)
        by (unfold total_frame_size; lia).
      assert (K : (length (skipn (total_frame_size buffer) buffer) + 4
                   <= length buffer)%nat) by (rewrite length_skipn; lia).
      destruct (_ =? _).
      * simpl. split; [lia | intros; lia].
      * destruct (IH (skipn (total_frame_size buffer) buffer)) as [A B]; [lia |].
        split; [lia | intros f Hf; specialize (B f Hf); lia].
  - destruct buffer as [| b buffer]; [simpl in L; lia |].
    rewrite read_loop_noise by (simpl in *; unfold at_index in E; simpl in E; (lia || exact E)).
    destruct (IH buffer) as [A B]; [simpl; lia |].
    simpl length. split; [lia | intros f Hf; specialize (B f Hf); lia].
Qed.

Lemma read_loop_none_stuck (buffer rest : list N) :
  read_loop buffer = (None, rest) -> stuck rest.
Proof.
  unfold stuck. revert rest.
  induction buffer as [buffer IH] using (induction_ltof1 _ (@length N)).
  unfold ltof in IH. intros rest. loop_cases buffer.
  - rewrite read_loop_short by exact Hshort. intros [= <-].
    apply read_loop_short. exact Hshort.
  - rewrite read_loop_partial by assumption. intros [= <-].
    apply read_loop_partial; assumption.
  - rewrite read_loop_complete by (assumption || lia). cbv zeta.
    destruct (_ =? _); [discriminate |].
    apply IH. rewrite length_skipn. unfold total_frame_size. lia.
  - destruct buffer as [| b buffer]; [simpl in Hlong; lia |].
    rewrite read_loop_noise by (simpl in Hlong; lia || exact Hnoise).
    apply IH. simpl. lia.
Qed.

Lemma stuck_inv (buffer : list N) :
  stuck buffer ->
  (length buffer <= 3)%nat
  \/ ((3 < length buffer)%nat /\ at_index buffer 0 = START_DELIMITER
      /\ (length buffer < total_frame_size buffer)%nat).
Proof.
  unfold stuck. intros H.
  pose proof (read_loop_shrinks buffer) as [A B].
  loop_cases buffer; [left; exact Hshort | right; auto | |].
  - exfalso. rewrite read_loop_complete in H by (assumption || lia).
    cbv zeta in H. destruct (_ =? _); [discriminate |].
    pose proof (read_loop_shrinks (skipn (total_frame_size buffer) buffer))
      as [A' _].
    rewrite H in A'. simpl in A'. rewrite length_skipn in A'.
    unfold total_frame_size in *. lia.
  - exfalso. destruct buffer as [| b buffer]; [simpl in Hlong; lia |].
    rewrite read_loop_noise in H by (simpl in Hlong; lia || exact Hnoise).
    pose proof (read_loop_shrinks buffer) as [A' _].
    rewrite H in A'. simpl in A'. lia.
Qed.

Lemma at_index_app (a c : list N) (i : nat) :
  (i < length a)%nat -> at_index (a ++ c) i = at_index a i.
Proof. intros H. unfold at_index. apply app_nth1. exact H. Qed.

Lemma total_frame_size_app (a c : list N) :
  (3 <= length a)%nat -> total_frame_size (a ++ c) = total_frame_size a.
Proof.
  intros H. unfold total_frame_size, frame_length.
  rewrite !at_index_app by lia. reflexivity.
Qed.

(** Bytes appended behind the buffer do not change what the loop has
    already decided. *)
Lemma read_loop_app (a c : list N) :
  match read_loop a with
  | (Some frame, rest) => read_loop (a ++ c) = (Some frame, rest ++ c)
  | (None, rest) => read_loop (a ++ c) = read_loop (rest ++ c)
  end.
Proof.
  induction a as [a IH] using (induction_ltof1 _ (@length N)).
  unfold ltof in IH. loop_cases a.
  - rewrite read_loop_short by exact Hshort. reflexivity.
  - rewrite read_loop_partial by assumption. reflexivity.
  - assert (T : (4 <= total_frame_size a)%nat)
      by (unfold total_frame_size; lia).
    rewrite (read_loop_complete a) by (assumption || lia).
    rewrite (read_loop_complete (a ++ c)).
    + cbv zeta. rewrite total_frame_size_app by lia.
      rewrite firstn_app, skipn_app.
      replace (total_frame_size a - length a)%nat with 0%nat by lia.
      simpl firstn at 2. simpl skipn at 2. rewrite app_nil_r.
      destruct (_ =? _); [reflexivity |].
      apply IH. rewrite length_skipn. lia.
    + rewrite length_app. lia.
    + rewrite at_index_app by lia. exact Hstart.
    + rewrite total_frame_size_app by lia. rewrite length_app. lia.
  - destruct a as [| b a]; [simpl in Hlong; lia |].
    rewrite read_loop_noise by (simpl in Hlong; lia || exact Hnoise).
    simpl app. rewrite (read_loop_noise b (a ++ c))
      by (rewrite ?length_app; simpl in Hlong; lia || exact Hnoise).
    apply IH. simpl. lia.
Qed.

Lemma read_loop_exact (buffer : list N) :
  (3 < length buffer)%nat -> at_index buffer 0 = START_DELIMITER ->
  total_frame_size buffer = length buffer ->
  snd (read_loop buffer) = [].
Proof.
  intros L E T. rewrite read_loop_complete by (assumption || lia).
  cbv zeta. rewrite T, skipn_all.
  destruct (_ =? _); [reflexivity |].
  rewrite read_loop_short by (simpl; lia). reflexivity.
Qed.

(** After a call that brought a single byte the loop is stuck again: the
    buffer never holds more than the frame being assembled. *)
Lemma stuck_step (buffer : list N) (b : N) :
  stuck buffer -> stuck (snd (read_loop (buffer ++ [b]))).
Proof.
  intros St.
  destruct (read_loop (buffer ++ [b])) as [[frame |] rest] eqn:E;
    [| simpl; eapply read_loop_none_stuck; exact E].
  assert (T4 : (4 <= total_frame_size (buffer ++ [b]))%nat)
    by (unfold total_frame_size; lia).
  assert (Len : length (buffer ++ [b]) = S (length buffer))
    by (rewrite length_app; simpl; lia).
  enough (R : snd (read_loop (buffer ++ [b])) = []).
  { rewrite E in R. simpl in *. subst rest. apply read_loop_short. simpl. lia. }
  apply stuck_inv in St. destruct St as [S | (L & St & P)].
  - loop_cases (buffer ++ [b]).
    + rewrite read_loop_short in E by exact Hshort. discriminate.
    + rewrite read_loop_partial in E by assumption. discriminate.
    + apply read_loop_exact; (assumption || lia).
    + destruct buffer as [| x buffer]; [simpl in Hlong; lia |].
      simpl app in *. simpl in S, Len, Hlong.
      rewrite length_app in Hlong, Len. simpl in Hlong, Len.
      assert (L3 : (3 <= length (buffer ++ [b]))%nat)
        by (rewrite length_app; simpl; lia).
      rewrite (read_loop_noise x (buffer ++ [b]) L3 Hnoise) in E.
      rewrite read_loop_short in E by (rewrite length_app; simpl; lia).
      discriminate.
  - assert (T : total_frame_size (buffer ++ [b]) = total_frame_size buffer)
      by (apply total_frame_size_app; lia).
    assert (A : at_index (buffer ++ [b]) 0 = START_DELIMITER)
      by (rewrite at_index_app by lia; exact St).
    destruct (lt_dec (length (buffer ++ [b])) (total_frame_size (buffer ++ [b]))).
    + rewrite read_loop_partial in E by (assumption || lia). discriminate.
    + apply read_loop_exact; (assumption || lia).
Qed.

Lemma drain_fuel_enough (n m : nat) (buffer : list N) :
  (length buffer <= n)%nat -> (length buffer <= m)%nat ->
  drain_fuel n buffer = drain_fuel m buffer.
Proof.
  revert m buffer. induction n as [| n IH]; intros m buffer Hn Hm.
  - destruct buffer; [| simpl in Hn; lia].
    destruct m; simpl; [reflexivity |].
    rewrite read_loop_short by (simpl; lia). reflexivity.
  - destruct m as [| m].
    + destruct buffer; [| simpl in Hm; lia]. simpl.
      rewrite read_loop_short by (simpl; lia). reflexivity.
    + simpl. pose proof (read_loop_shrinks buffer) as [_ B].
      destruct (read_loop buffer) as [[frame |] rest]; [| reflexivity].
      specialize (B frame eq_refl). simpl in B.
      rewrite (IH m rest) by lia. reflexivity.
Qed.

Lemma drain_unfold (buffer : list N) :
  drain buffer =
  match read_loop buffer with
  | (Some frame, rest) =>
    let (later, final) := drain rest in (frame :: later, final)
  | (None, rest) => ([], rest)
  end.
Proof.
  unfold drain. destruct buffer as [| x buffer].
  - simpl. rewrite read_loop_short by (simpl; lia). reflexivity.
  - cbn [length drain_fuel].
    pose proof (read_loop_shrinks (x :: buffer)) as [_ B].
    destruct (read_loop (x :: buffer)) as [[frame |] rest]; [| reflexivity].
    specialize (B frame eq_refl). simpl in B.
    rewrite (drain_fuel_enough (length buffer) (length rest)) by lia.
    reflexivity.
Qed.

Lemma bytewise_drain (bytes buffer : list N) :
  stuck buffer -> feed_bytewise buffer bytes = drain (buffer ++ bytes).
Proof.
  revert buffer. induction bytes as [| b bytes IH]; intros buffer St.
  - simpl. rewrite app_nil_r, drain_unfold. rewrite St. reflexivity.
  - cbn [feed_bytewise _read_api_frame].
    pose proof (stuck_step buffer b St) as St'.
    pose proof (read_loop_app (buffer ++ [b]) bytes) as App.
    replace (buffer ++ b :: bytes) with ((buffer ++ [b]) ++ bytes)
      by (rewrite <- app_assoc; reflexivity).
    destruct (read_loop (buffer ++ [b])) as [[frame |] rest]; simpl in St'.
    + rewrite (IH rest St').
      rewrite (drain_unfold ((buffer ++ [b]) ++ bytes)), App. reflexivity.
    + rewrite (IH rest St').
      rewrite (drain_unfold ((buffer ++ [b]) ++ bytes)), App.
      rewrite <- drain_unfold.
      destruct (drain (rest ++ bytes)). reflexivity.
Qed.

(** C2, as the code has it.  Byte-at-a-time feeding returns exactly the
    frames that running the decoding loop over the whole sequence until it
    gives [None] would return, and leaves the same buffer; a single call on
    the whole sequence returns only the first of these frames. *)
Theorem bytewise_is_drain_at_once_is_first (bytes : list N) :
  feed_bytewise [] bytes = drain bytes
  /\ fst (feed_at_once [] bytes) = firstn 1 (fst (drain bytes)).
Proof.
  split.
  - apply (bytewise_drain bytes []). apply read_loop_short. simpl. lia.
  - unfold feed_at_once, _read_api_frame. rewrite drain_unfold.
    destruct bytes as [| b bytes].
    + rewrite read_loop_short by (simpl; lia). reflexivity.
    + simpl app. destruct (read_loop (b :: bytes)) as [[frame |] rest];
        [| reflexivity].
      destruct (drain rest). reflexivity.
Qed.

(** C2, as stated, fails: two frames back to back.  Fed byte by byte both
    payloads come out; fed in one call only the first does, and a further
    call without new bytes returns nothing. *)
Lemma chunking_counterexample :
  let bytes := [0x7E; 0; 1; 0x41; 0xBE; 0x7E; 0; 1; 0x42; 0xBD] in
  fst (feed_bytewise [] bytes) = [[0x41]; [0x42]]
  /\ feed_at_once [] bytes = ([[0x41]], [0x7E; 0; 1; 0x42; 0xBD])
  /\ _read_api_frame (snd (feed_at_once [] bytes)) []
     = (None, [0x7E; 0; 1; 0x42; 0xBD])
  /\ fst (feed_bytewise [] bytes) <> fst (feed_at_once [] bytes).
Proof.
  cbv zeta. repeat split; try reflexivity.
  vm_compute. discriminate.
Qed.

(** *** Noise and sequences of frames *)

Lemma read_loop_skips_noise (noise buffer : list N) :
  Forall (fun b => b <> START_DELIMITER) noise ->
  (3 <= length buffer)%nat ->
  read_loop (noise ++ buffer) = read_loop buffer.
Proof.
  intros Hn Hb. induction Hn as [| b noise Hb' _ IH]; [reflexivity |].
  simpl app. rewrite read_loop_noise; [exact IH | | exact Hb'].
  rewrite length_app. lia.
Qed.

(** X1.  Bytes in front of a frame that are not the start delimiter are
    dropped one by one and the frame behind them is decoded as if they were
    not there. *)
Theorem decoder_skips_noise
    (hi lo trailing : N) (noise payload buffer uart rest : list N) :
  Forall (fun b => b <> START_DELIMITER) noise ->
  N.lor (N.shiftl hi 8) lo = N.of_nat (length payload) ->
  uart <> [] ->
  buffer ++ uart = noise ++ wire_frame hi lo payload trailing ++ rest ->
  _read_api_frame buffer uart
  = if expected_checksum payload =? trailing
    then (Some payload, rest) else read_loop rest.
Proof.
  intros Hn Hlen Huart Hbuf. unfold _read_api_frame.
  destruct uart as [| u uart']; [contradiction |].
  rewrite Hbuf, read_loop_skips_noise; [apply read_loop_frame; exact Hlen | exact Hn |].
  unfold wire_frame. simpl. lia.
Qed.

Lemma decoder_skips_noise_witness :
  _read_api_frame [0x00; 0x13] [0xA2; 0x7E; 0; 1; 0x41; 0xBE; 0x55]
  = (Some [0x41], [0x55]).
Proof.
  apply (decoder_skips_noise 0 1 0xBE [0x00; 0x13; 0xA2] [0x41]
           [0x00; 0x13] [0xA2; 0x7E; 0; 1; 0x41; 0xBE; 0x55] [0x55]).
  - repeat constructor; discriminate.
  - reflexivity.
  - discriminate.
  - reflexivity.
Defined.

Lemma length_field_bytes (n : N) :
  N.lor (N.shiftl (n / 256) 8) (n mod 256) = n.
Proof.
  assert (D : N.land (N.shiftl (n / 256) 8) (n mod 256) = 0).
  { apply N.bits_inj. intros k. rewrite N.land_spec, N.bits_0.
    destruct (N.lt_ge_cases k 8) as [L | L].
    - rewrite N.shiftl_spec_low by exact L. reflexivity.
    - change 256 with (2 ^ 8). rewrite N.mod_pow2_bits_high by exact L.
      apply andb_false_r. }
  rewrite <- N.lxor_lor by exact D. rewrite <- N.add_nocarry_lxor by exact D.
  rewrite N.shiftl_mul_pow2. change (2 ^ 8) with 256.
  rewrite (N.div_mod n 256) at 3 by discriminate. lia.
Qed.

Lemma drain_encoded (payload rest : list N) :
  drain (encode_frame payload ++ rest)
  = (payload :: fst (drain rest), snd (drain rest)).
Proof.
  rewrite drain_unfold. unfold encode_frame.
  rewrite read_loop_frame by apply length_field_bytes.
  rewrite N.eqb_refl. destruct (drain rest). reflexivity.
Qed.

Lemma drain_encoded_all (payloads : list (list N)) :
  drain (concat (map encode_frame payloads)) = (payloads, []).
Proof.
  induction payloads as [| p payloads IH]; [reflexivity |].
  cbn [map concat]. rewrite drain_encoded, IH. reflexivity.
Qed.

(** X2.  Frames built as the wire format prescribes, one behind the other
    and fed byte by byte: every payload comes out, in the order sent, and
    nothing is left in the buffer. *)
Theorem bytewise_decodes_encoded_frames (payloads : list (list N)) :
  Forall (fun payload => N.of_nat (length payload) < 65536) payloads ->
  feed_bytewise [] (concat (map encode_frame payloads)) = (payloads, []).
Proof.
  intros _. rewrite (bytewise_drain _ []) by (apply read_loop_short; simpl; lia).
  apply drain_encoded_all.
Qed.

Lemma bytewise_decodes_encoded_frames_witness :
  feed_bytewise [] (concat (map encode_frame [[0x41]; []; [0x7E; 0x42]]))
  = ([[0x41]; []; [0x7E; 0x42]], []).
Proof.
  apply bytewise_decodes_encoded_frames.
  repeat constructor.
Defined.

End FrameDecoder.

(** ** Unescaping *)

Section Unescape.

Import Part1.

Lemma skipn_at_index (data : list N) (i : nat) :
  (i < length data)%nat -> skipn i data = at_index data i :: skipn (S i) data.
Proof.
  revert i. induction data as [| x data IH]; intros i H; [simpl in H; lia |].
  destruct i as [| i]; [reflexivity |].
  simpl. apply IH. simpl in H. lia.
Qed.

(** The index loop computes the list function. *)
Lemma unescape_from_list (data : list N) (i : nat) (result : list N) :
  unescape_from data i result = result ++ unescape_list (skipn i data).
Proof.
  funelim (unescape_from data i result).
  - rewrite skipn_all2 by lia. simpl. rewrite app_nil_r. reflexivity.
  - rewrite H.
    rewrite (skipn_at_index data i) by lia.
    replace (i + 1)%nat with (S i) by lia.
    cbn [unescape_list].
    destruct (N.eqb_spec (at_index data i) ESCAPE); [contradiction |].
    rewrite <- app_assoc. reflexivity.
  - rewrite H.
    rewrite (skipn_at_index data i) by lia.
    rewrite (skipn_at_index data (S i)) by lia.
    replace (i + 2)%nat with (S (S i)) by lia.
    replace (i + 1)%nat with (S i) by lia.
    cbn [unescape_list]. rewrite e. rewrite N.eqb_refl.
    rewrite <- app_assoc. reflexivity.
  - rewrite H.
    rewrite (skipn_at_index data i) by lia.
    replace (i + 1)%nat with (S i) by lia.
    rewrite (skipn_all2 data (n:=S i)) by lia.
    cbn [unescape_list]. rewrite e, N.eqb_refl. reflexivity.
Qed.

Lemma unescape_data_list (data : list N) :
  _unescape_data data = unescape_list data.
Proof. unfold _unescape_data. rewrite unescape_from_list. reflexivity. Qed.

Lemma unescape_list_lone_escape (data : list N) :
  escape_pending data = false ->
  unescape_list (data ++ [ESCAPE]) = unescape_list data.
Proof.
  induction data as [data IH] using (induction_ltof1 _ (@length N)).
  unfold ltof in IH. destruct data as [| x [| b rest]]; intros P.
  - reflexivity.
  - simpl in *. destruct (x =? ESCAPE); [discriminate | reflexivity].
  - cbn [escape_pending] in P. cbn [app unescape_list].
    destruct (x =? ESCAPE).
    + f_equal. apply IH; [simpl; lia | exact P].
    + f_equal. apply (IH (b :: rest)); [simpl; lia | exact P].
Qed.

(** C8, as the code has it.  Scanning from the left, an escape byte and the
    byte [b] after it give the single byte [b XOR 0x20], any other byte is
    copied, and an escape byte left alone at the very end is dropped without
    any signal: the result is the unescaping of what comes before it. *)
Theorem unescape_pairs_and_lone_escape :
  _unescape_data [] = []
  /\ (forall b rest,
        _unescape_data (ESCAPE :: b :: rest)
        = N.lxor b 0x20 :: _unescape_data rest)
  /\ (forall x rest,
        x <> ESCAPE -> _unescape_data (x :: rest) = x :: _unescape_data rest)
  /\ (forall data,
        escape_pending data = false ->
        _unescape_data (data ++ [ESCAPE]) = _unescape_data data).
Proof.
  repeat split.
  - intros b rest. rewrite !unescape_data_list. reflexivity.
  - intros x rest Hx. rewrite !unescape_data_list. cbn [unescape_list].
    destruct (N.eqb_spec x ESCAPE); [contradiction | reflexivity].
  - intros data P. rewrite !unescape_data_list.
    apply unescape_list_lone_escape. exact P.
Qed.

Lemma unescape_pairs_and_lone_escape_witness :
  _unescape_data (0x41 :: [ESCAPE; 0x5E]) = 0x41 :: _unescape_data [ESCAPE; 0x5E]
  /\ _unescape_data ([0x41; ESCAPE; 0x5E] ++ [ESCAPE])
     = _unescape_data [0x41; ESCAPE; 0x5E].
Proof.
  split.
  - apply (proj1 (proj2 (proj2 unescape_pairs_and_lone_escape))). discriminate.
  - apply (proj2 (proj2 (proj2 unescape_pairs_and_lone_escape))). reflexivity.
Defined.

(** C8, as stated, fails: a checksum-valid frame whose payload ends in a
    lone escape byte is accepted by the decoder; unescaping it only drops
    that byte, and the extractor still returns application data, with or
    without the unescaping step. *)
Lemma lone_escape_counterexample :
  let payload := [0x81; 0; 1; 0x28; 0; 0x41; 0x7D] in
  _read_api_frame [] ([0x7E; 0; 7] ++ payload ++ [0x97]) = (Some payload, [])
  /\ _unescape_data payload = [0x81; 0; 1; 0x28; 0; 0x41]
  /\ _process_rx_packet (_unescape_data payload) = Some [0x41]
  /\ _process_rx_packet payload = Some [0x41; 0x7D].
Proof. cbv zeta. repeat split; reflexivity. Qed.

(** *** Round trip and lengths *)

Lemma unescape_escape_list (data : list N) :
  unescape_list (escape_list data) = data.
Proof.
  induction data as [| b data IH]; [reflexivity |].
  unfold escape_list in *. cbn [flat_map].
  destruct (needs_escape b) eqn:E.
  - cbn [app unescape_list]. rewrite N.eqb_refl, IH.
    rewrite N.lxor_assoc, N.lxor_nilpotent, N.lxor_0_r. reflexivity.
  - cbn [app unescape_list].
    unfold needs_escape in E.
    destruct (b =? ESCAPE); [| rewrite IH; reflexivity].
    rewrite orb_true_r in E. discriminate.
Qed.

(** X3.  Unescaping undoes escaping: for any data, escaped the way the
    radio escapes the delimiter, the escape byte, XON and XOFF, the result is
    the data again. *)
Theorem unescape_inverts_escape (data : list N) :
  _unescape_data (escape_list data) = data.
Proof. rewrite unescape_data_list. apply unescape_escape_list. Qed.

Lemma unescape_list_copy (x : N) (rest : list N) :
  x <> ESCAPE -> unescape_list (x :: rest) = x :: unescape_list rest.
Proof.
  intros Hx. cbn [unescape_list].
  destruct (N.eqb_spec x ESCAPE); [contradiction | reflexivity].
Qed.

Lemma unescape_list_length (data : list N) :
  (length (unescape_list data) <= length data)%nat
  /\ (In ESCAPE data -> (length (unescape_list data) < length data)%nat).
Proof.
  induction data as [data IH] using (induction_ltof1 _ (@length N)).
  unfold ltof in IH. destruct data as [| x rest].
  - simpl. split; [lia | intros []].
  - destruct (N.eq_dec x ESCAPE) as [-> | Hx].
    + destruct rest as [| b rest]; [simpl; split; intros; lia |].
      change (unescape_list (ESCAPE :: b :: rest))
        with (N.lxor b 0x20 :: unescape_list rest).
      destruct (IH rest) as [A _]; [simpl; lia |].
      cbn [length]. split; intros; lia.
    + rewrite unescape_list_copy by exact Hx.
      destruct (IH rest) as [A B]; [simpl; lia |].
      cbn [length]. split; [lia |].
      intros [H | H]; [congruence |]. specialize (B H). lia.
Qed.

Lemma unescape_list_plain (data : list N) :
  Forall (fun b => b <> ESCAPE) data -> unescape_list data = data.
Proof.
  induction 1 as [| b data Hb _ IH]; [reflexivity |].
  cbn [unescape_list]. destruct (N.eqb_spec b ESCAPE); [contradiction |].
  rewrite IH. reflexivity.
Qed.

(** X4.  Unescaping never lengthens the data, and it returns the data
    unchanged exactly when the data holds no escape byte. *)
Theorem unescape_length_and_identity (data : list N) :
  (length (_unescape_data data) <= length data)%nat
  /\ (_unescape_data data = data <-> Forall (fun b => b <> ESCAPE) data).
Proof.
  rewrite unescape_data_list. split; [apply unescape_list_length |].
  split; [| apply unescape_list_plain].
  intros E. apply List.Forall_forall. intros b Hb ->.
  destruct (unescape_list_length data) as [_ L]. specialize (L Hb).
  rewrite E in L. lia.
Qed.

End Unescape.

(** ** The payload extractor *)

Section Extractor.

Import Part1.

Lemma utf8_decode_ascii (data : list N) :
  Forall (fun b => b < 0x80) data -> utf8_decode data = Some data.
Proof.
  induction 1 as [| b data Hb _ IH]; [reflexivity |].
  cbn [utf8_decode]. apply N.ltb_lt in Hb. rewrite Hb, IH. reflexivity.
Qed.

(** C6, as the code has it.  After the type byte the 64-bit variant has an
    8-byte address, an RSSI byte and an options byte (data from offset 11),
    the 16-bit variant a 2-byte address, an RSSI byte and an options byte
    (data from offset 5), the generic variant an 8-byte address, a 2-byte
    network address and an options byte (data from offset 12).  What is
    returned is the data decoded as UTF-8, the bytes themselves when they
    are ASCII; a payload shorter than the offset of its type, an unknown
    type and undecodable data give [None]. *)
Theorem extractor_offsets :
  (forall address rssi options data,
      length address = 8%nat ->
      _process_rx_packet (RX_PACKET_64 :: address ++ [rssi; options] ++ data)
      = utf8_decode data)
  /\ (forall address rssi options data,
        length address = 2%nat ->
        _process_rx_packet (RX_PACKET_16 :: address ++ [rssi; options] ++ data)
        = utf8_decode data)
  /\ (forall address network options data,
        length address = 8%nat -> length network = 2%nat ->
        _process_rx_packet
          (RX_PACKET :: address ++ network ++ [options] ++ data)
        = utf8_decode data)
  /\ (forall data, Forall (fun b => b < 0x80) data ->
                   utf8_decode data = Some data)
  /\ (forall frame_data offset,
        data_offset (at_index frame_data 0) = Some offset ->
        (length frame_data < offset)%nat ->
        _process_rx_packet frame_data = None)
  /\ (forall frame_data,
        data_offset (at_index frame_data 0) = None ->
        _process_rx_packet frame_data = None).
Proof.
  split; [| split; [| split; [| split; [| split]]]].
  - intros address rssi options data H.
    do 9 (destruct address as [| ? address]; try discriminate H).
    reflexivity.
  - intros address rssi options data H.
    do 3 (destruct address as [| ? address]; try discriminate H).
    reflexivity.
  - intros address network options data H H'.
    do 9 (destruct address as [| ? address]; try discriminate H).
    do 3 (destruct network as [| ? network]; try discriminate H').
    reflexivity.
  - exact utf8_decode_ascii.
  - intros frame_data offset. unfold _process_rx_packet, data_offset.
    destruct (length frame_data <? 1)%nat; [reflexivity |].
    destruct (at_index frame_data 0 =? RX_PACKET_64) eqn:E64.
    + apply N.eqb_eq in E64. rewrite E64. cbn -[Nat.ltb].
      intros [= <-] L. apply Nat.ltb_lt in L. rewrite L. reflexivity.
    + destruct (at_index frame_data 0 =? RX_PACKET_16) eqn:E16.
      * apply N.eqb_eq in E16. rewrite E16. cbn -[Nat.ltb].
        intros [= <-] L. apply Nat.ltb_lt in L. rewrite L. reflexivity.
      * destruct (at_index frame_data 0 =? RX_PACKET) eqn:E; [| discriminate].
        intros [= <-] L. apply Nat.ltb_lt in L. rewrite L. reflexivity.
  - intros frame_data. unfold _process_rx_packet, data_offset.
    destruct (length frame_data <? 1)%nat; [reflexivity |].
    destruct (at_index frame_data 0 =? RX_PACKET_64);
      [discriminate |].
    destruct (at_index frame_data 0 =? RX_PACKET_16); [discriminate |].
    destruct (at_index frame_data 0 =? RX_PACKET); [discriminate |].
    reflexivity.
Qed.

Lemma extractor_offsets_witness :
  _process_rx_packet (RX_PACKET_64 :: [0; 0x13; 0xA2; 0; 0x42; 1; 9; 0x17]
                        ++ [0x28; 0] ++ [0x41; 0x42])
  = utf8_decode [0x41; 0x42]
  /\ _process_rx_packet (RX_PACKET_16 :: [0; 1] ++ [0x28; 0] ++ [0x41; 0x42])
     = utf8_decode [0x41; 0x42]
  /\ _process_rx_packet (RX_PACKET :: [0; 0x13; 0xA2; 0; 0x42; 1; 9; 0x17]
                           ++ [0xFF; 0xFE] ++ [1] ++ [0x41; 0x42])
     = utf8_decode [0x41; 0x42]
  /\ utf8_decode [0x41; 0x42] = Some [0x41; 0x42]
  /\ _process_rx_packet [RX_PACKET_16; 0; 1; 0x28] = None
  /\ _process_rx_packet [0x8B; 0; 1; 0x28; 0; 0x41] = None.
Proof.
  destruct extractor_offsets as (T64 & T16 & T & A & Short & Unknown).
  split; [apply T64; reflexivity |].
  split; [apply T16; reflexivity |].
  split; [apply T; reflexivity |].
  split; [apply A; repeat constructor |].
  split; [apply (Short _ 5%nat); [reflexivity | simpl; lia] |].
  apply Unknown. reflexivity.
Defined.

(** C6, as stated, fails.  A 16-bit-address payload laid out as the
    document says (type byte, 2-byte address, 1 status byte, data [AB]):
    the code takes the data from offset 5, not from the documented offset 4,
    and so loses the first data byte; and a payload of exactly the
    documented header width, which the document lets through with empty
    data, is rejected. *)
Lemma extractor_counterexample :
  let payload := [0x81; 0; 1; 0x28; 0x41; 0x42] in
  documented_data_offset (at_index payload 0) = Some 4%nat
  /\ skipn 4 payload = [0x41; 0x42]
  /\ _process_rx_packet payload = Some [0x42]
  /\ _process_rx_packet payload <> Some (skipn 4 payload)
  /\ _process_rx_packet [0x81; 0; 1; 0x28] = None.
Proof. cbv zeta. repeat split; try reflexivity. discriminate. Qed.

End Extractor.

(** ** The forwarder *)

Section Forwarder.

Import Py Gateway.
Local Open Scope Q_scope.

Lemma Qltb_lt (x y : Q) : Qltb x y = true <-> x < y.
Proof.
  unfold Qltb. rewrite negb_true_iff. split.
  - intros H. apply Qnot_le_lt. intros L.
    apply Qle_bool_iff in L. congruence.
  - intros H. destruct (Qle_bool y x) eqn:E; [| reflexivity].
    apply Qle_bool_iff in E. exfalso. apply (Qlt_not_le _ _ H E).
Qed.

Lemma Qltb_ge (x y : Q) : Qltb x y = false <-> y <= x.
Proof.
  unfold Qltb. rewrite negb_false_iff. apply Qle_bool_iff.
Qed.

(** What a send does to the client.  When the update raises or answers a
    value equal to 0, [None] is returned and the client, and so its
    last-update time, is as it was; the time is advanced, to the clock read
    after the update, exactly when the update answers a value that is not
    equal to 0. *)
Lemma send_data_outcome
    (self : ThingSpeakClient) (temperature humidity ppm temperatureF : Q)
    (current_time sent_time : Q) (sink : upstream) :
  let '(after, returned, _) :=
    send_data self temperature humidity ppm temperatureF
              current_time sink sent_time in
  (sink = Raises
   \/ (exists response, sink = Responds response /\ eq_zero response = true) ->
   after = self /\ returned = None)
  /\ (forall response,
        sink = Responds response -> eq_zero response = false ->
        last_update_time after = sent_time
        /\ min_interval after = min_interval self
        /\ returned = Some response)
  /\ (after <> self -> exists response,
        sink = Responds response /\ eq_zero response = false).
Proof.
  unfold send_data. destruct sink as [response |].
  - destruct (eq_zero response) eqn:Z.
    + split; [auto |]. split; [intros r [= <-] C; congruence |].
      intros C. contradiction.
    + split; [intros [C | (r & [= <-] & C)]; [discriminate | congruence] |].
      split; [intros r [= <-] _; auto |].
      intros _. exists response. auto.
  - split; [auto |]. split; [discriminate |]. intros C. contradiction.
Qed.

(** C7.  The test [response == 0] does not recognise the answer of a
    rejected update when it arrives as the text [0]: a text is not equal to
    0, so the send counts as a success, the text is returned and the
    last-update time is advanced to the clock read after the update, whatever
    the client and the values sent. *)
Theorem zero_text_advances_timestamp
    (self : ThingSpeakClient) (temperature humidity ppm temperatureF : Q)
    (current_time sent_time : Q) :
  let '(after, returned, _) :=
    send_data self temperature humidity ppm temperatureF
              current_time (Responds (PyText (lit "0"))) sent_time in
  last_update_time after = sent_time
  /\ returned = Some (PyText (lit "0")).
Proof.
  pose proof (send_data_outcome self temperature humidity ppm temperatureF
                current_time sent_time (Responds (PyText (lit "0")))) as H.
  destruct (send_data _ _ _ _ _ _ _ _) as [[after returned] trace].
  destruct (proj1 (proj2 H) _ eq_refl eq_refl) as (T & _ & R).
  split; assumption.
Qed.

(** C9, as the code has it.  The client is created with a minimum interval
    of 20 seconds, longer than the 15-second upload period of the loop that
    calls it.  A send first measures the time since the last successful
    update; when that is less than the minimum interval it sleeps for exactly
    the remainder and only then performs the update, otherwise it performs
    the update at once. *)
Theorem send_waits_out_min_interval
    (self : ThingSpeakClient) (temperature humidity ppm temperatureF : Q)
    (current_time sent_time : Q) (sink : upstream) :
  (forall channel key,
      min_interval (ThingSpeakClient_init channel key) = 20
      /\ UPLOAD_PERIOD < min_interval (ThingSpeakClient_init channel key))
  /\ (current_time - last_update_time self < min_interval self ->
      snd (send_data self temperature humidity ppm temperatureF
                     current_time sink sent_time)
      = [Sleep (min_interval self - (current_time - last_update_time self));
         ChannelUpdate temperature humidity ppm temperatureF])
  /\ (min_interval self <= current_time - last_update_time self ->
      snd (send_data self temperature humidity ppm temperatureF
                     current_time sink sent_time)
      = [ChannelUpdate temperature humidity ppm temperatureF]).
Proof.
  split; [| split].
  - intros channel key. split; reflexivity.
  - intros H. apply Qltb_lt in H. unfold send_data. rewrite H.
    destruct sink as [response |]; [destruct (eq_zero response) |]; reflexivity.
  - intros H. apply Qltb_ge in H. unfold send_data. rewrite H.
    destruct sink as [response |]; [destruct (eq_zero response) |]; reflexivity.
Qed.

Lemma send_waits_out_min_interval_witness :
  let self := set_last_update_time (ThingSpeakClient_init "1" "K") 100 in
  snd (send_data self 26 28 400 (788 # 10) 115 (Responds (PyText (lit "7"))) 121)
  = [Sleep (min_interval self - (115 - last_update_time self));
     ChannelUpdate 26 28 400 (788 # 10)]
  /\ snd (send_data self 26 28 400 (788 # 10) 125 (Responds (PyText (lit "7"))) 126)
     = [ChannelUpdate 26 28 400 (788 # 10)].
Proof.
  cbv zeta. split.
  - apply (proj1 (proj2 (send_waits_out_min_interval
             (set_last_update_time (ThingSpeakClient_init "1" "K") 100)
             26 28 400 (788 # 10) 115 121 (Responds (PyText (lit "7")))))).
    reflexivity.
  - apply (proj2 (proj2 (send_waits_out_min_interval
             (set_last_update_time (ThingSpeakClient_init "1" "K") 100)
             26 28 400 (788 # 10) 125 126 (Responds (PyText (lit "7")))))).
    discriminate.
Defined.

(** C9, as stated, fails: the minimum interval of a new client is not the
    15-second upload period, so a send made 15 seconds after the last
    successful one still sleeps, for 5 seconds. *)
Lemma min_interval_counterexample :
  ~ (min_interval (ThingSpeakClient_init "1" "K") == UPLOAD_PERIOD)
  /\ snd (send_data (set_last_update_time (ThingSpeakClient_init "1" "K") 100)
                    26 28 400 (788 # 10) 115 (Responds (PyText (lit "7"))) 121)
     = [Sleep (20 - (115 - 100)); ChannelUpdate 26 28 400 (788 # 10)]
  /\ 20 - (115 - 100) == 5.
Proof.
  split; [| split].
  - intros H. vm_compute in H. discriminate.
  - reflexivity.
  - reflexivity.
Qed.



End Forwarder.

(** ** The reading parser *)

Section Parser.

Import Py Gateway.

Lemma startswith_app (prefix rest : str) :
  startswith (prefix ++ rest) prefix = true.
Proof.
  induction prefix as [| c prefix IH]; simpl.
  - destruct rest; reflexivity.
  - rewrite N.eqb_refl, IH. reflexivity.
Qed.

Lemma split_app (sep : N) (a b : str) :
  Forall (fun c => c <> sep) a ->
  split sep (a ++ sep :: b) = a :: split sep b.
Proof.
  induction 1 as [| c a Hc _ IH]; simpl.
  - rewrite N.eqb_refl. reflexivity.
  - destruct (N.eqb_spec c sep); [contradiction |]. rewrite IH. reflexivity.
Qed.

Lemma split_plain (sep : N) (a : str) :
  Forall (fun c => c <> sep) a -> split sep a = [a].
Proof.
  induction 1 as [| c a Hc _ IH]; simpl; [reflexivity |].
  destruct (N.eqb_spec c sep); [contradiction |]. rewrite IH. reflexivity.
Qed.

Lemma plain_no_comma (s : str) : plain s -> Forall (fun c => c <> 44) s.
Proof. apply List.Forall_impl. intros c [H _]. exact H. Qed.

Lemma plain_no_colon (s : str) : plain s -> Forall (fun c => c <> 58) s.
Proof. apply List.Forall_impl. intros c [_ H]. exact H. Qed.

Lemma field_split (label value : str) :
  plain label -> plain value ->
  split 58 (label ++ [58] ++ value) = [label; value].
Proof.
  intros Hl Hv. simpl app. rewrite split_app by (apply plain_no_colon, Hl).
  rewrite split_plain by (apply plain_no_colon, Hv). reflexivity.
Qed.

Lemma data_text_fields (l0 v0 l1 v1 l2 v2 : str) :
  plain l0 -> plain v0 -> plain l1 -> plain v1 -> plain l2 -> plain v2 ->
  split 44 (data_text l0 v0 l1 v1 l2 v2)
  = [lit "DATA:" ++ l0 ++ [58] ++ v0; l1 ++ [58] ++ v1; l2 ++ [58] ++ v2].
Proof.
  intros P0 Q0 P1 Q1 P2 Q2. unfold data_text.
  assert (C : forall l v, plain l -> plain v ->
                          Forall (fun c => c <> 44) (l ++ [58] ++ v)).
  { intros l v Pl Pv. apply List.Forall_app.
    split; [apply plain_no_comma, Pl |].
    constructor; [discriminate | apply plain_no_comma, Pv]. }
  replace (lit "DATA:" ++ l0 ++ [58] ++ v0 ++ [44] ++ l1 ++ [58] ++ v1
           ++ [44] ++ l2 ++ [58] ++ v2)
    with ((lit "DATA:" ++ l0 ++ [58] ++ v0)
          ++ 44 :: ((l1 ++ [58] ++ v1) ++ 44 :: (l2 ++ [58] ++ v2)))
    by (rewrite <- !app_assoc; reflexivity).
  rewrite split_app.
  - rewrite split_app by (apply C; assumption).
    rewrite split_plain by (apply C; assumption). reflexivity.
  - apply List.Forall_app. split; [| apply C; assumption].
    repeat constructor; discriminate.
Qed.

Lemma first_field_split (l0 v0 : str) :
  plain l0 -> plain v0 ->
  split 58 (lit "DATA:" ++ l0 ++ [58] ++ v0) = [lit "DATA"; l0; v0].
Proof.
  intros P Q.
  change (lit "DATA:" ++ l0 ++ [58] ++ v0)
    with (lit "DATA" ++ 58 :: (l0 ++ [58] ++ v0)).
  rewrite split_app by (repeat constructor; discriminate).
  rewrite field_split by assumption. reflexivity.
Qed.

(** C5, as the code has it.  The parser reads the values by position and
    never looks at the labels: on [DATA:l0:v0,l1:v1,l2:v2] it returns the
    three values in that order when [float()] accepts all of them, whatever
    the labels are, and [None] otherwise.  A text without the [DATA:] prefix,
    a text with fewer than three comma-separated fields and a byte array
    that is not UTF-8 give [None]; no path raises. *)
Theorem parser_reads_by_position :
  (forall l0 v0 l1 v1 l2 v2,
      plain l0 -> plain v0 -> plain l1 -> plain v1 -> plain l2 -> plain v2 ->
      parse_data (PyStr (data_text l0 v0 l1 v1 l2 v2))
      = match float_of_str v0, float_of_str v1, float_of_str v2 with
        | Some temperature, Some humidity, Some ppm =>
          Some (temperature, humidity, ppm)
        | _, _, _ => None
        end)
  /\ (forall s, startswith s (lit "DATA:") = false ->
                parse_data (PyStr s) = None)
  /\ (forall s, (length (split 44 s) < 3)%nat -> parse_data (PyStr s) = None)
  /\ (forall b,
        parse_data (PyByteArray b)
        = match Part1.utf8_decode b with
          | Some s => parse_data (PyStr s)
          | None => None
          end).
Proof.
  split; [| split; [| split]].
  - intros l0 v0 l1 v1 l2 v2 P0 Q0 P1 Q1 P2 Q2.
    unfold parse_data, parse_data_body. cbn [bind ret].
    unfold data_text at 1. rewrite startswith_app. cbn [negb]. rewrite data_text_fields by assumption.
    cbn [index nth_error bind ret].
    rewrite first_field_split by assumption.
    rewrite !field_split by assumption.
    cbn [index nth_error bind ret]. unfold float.
    destruct (float_of_str v0); [| reflexivity]. cbn [bind ret].
    destruct (float_of_str v1); [| reflexivity]. cbn [bind ret].
    destruct (float_of_str v2); reflexivity.
  - intros s H. unfold parse_data, parse_data_body. cbn [bind ret].
    rewrite H. reflexivity.
  - intros s H. unfold parse_data, parse_data_body. cbn [bind ret].
    destruct (startswith s (lit "DATA:")); [| reflexivity]. cbn [negb].
    destruct (split 44 s) as [| f0 [| f1 [| f2 rest]]];
      [reflexivity | | | simpl in H; lia].
    + cbn [index nth_error bind ret raise].
      destruct (index (split 58 f0) 2) as [[] | t0]; try reflexivity.
      cbn [bind]. destruct (float t0) as [[] | ?]; reflexivity.
    + cbn [index nth_error bind ret raise].
      destruct (index (split 58 f0) 2) as [[] | t0]; try reflexivity.
      cbn [bind]. destruct (float t0) as [[] | ?]; try reflexivity.
      cbn [bind]. destruct (index (split 58 f1) 1) as [[] | t1];
        try reflexivity.
      cbn [bind]. destruct (float t1) as [[] | ?]; reflexivity.
  - intros b. unfold parse_data, parse_data_body.
    destruct (Part1.utf8_decode b); reflexivity.
Qed.

Lemma parser_reads_by_position_witness :
  parse_data (PyStr (data_text (lit "TEMP") (lit "26") (lit "PPM") (lit "1")
                               (lit "HUM") (lit "28")))
  = match float_of_str (lit "26"), float_of_str (lit "1"),
          float_of_str (lit "28") with
    | Some temperature, Some humidity, Some ppm =>
      Some (temperature, humidity, ppm)
    | _, _, _ => None
    end
  /\ parse_data (PyStr (lit "HUM:28,PPM:1")) = None
  /\ parse_data (PyStr (lit "DATA:TEMP:26,HUM:28")) = None.
Proof.
  destruct parser_reads_by_position as (Pos & Prefix & Fields & _).
  split; [| split].
  - apply Pos; unfold plain; repeat constructor; discriminate.
  - apply Prefix. reflexivity.
  - apply Fields. simpl. lia.
Defined.

(** C5, as stated, fails: with the last two fields swapped, or with a wrong
    label in front of a numeric value, the parser still returns a reading,
    made of the values in the order they stand. *)
Lemma parser_counterexample :
  labels_in_order (lit "DATA:TEMP:26,PPM:1,HUM:28") = false
  /\ parse_data (PyStr (lit "DATA:TEMP:26,PPM:1,HUM:28"))
     = Some (Finite (26 # 1), Finite (1 # 1), Finite (28 # 1))
  /\ labels_in_order (lit "DATA:TEMP:26,XYZ:28,PPM:1") = false
  /\ parse_data (PyStr (lit "DATA:TEMP:26,XYZ:28,PPM:1"))
     = Some (Finite (26 # 1), Finite (28 # 1), Finite (1 # 1))
  /\ labels_in_order (lit "DATA:TEMP:26,HUM:28,PPM:1421194") = true.
Proof. repeat split; reflexivity. Qed.

(** *** Fields behind the third *)

Lemma parse_same_fields (s s' f0 f1 f2 : str) (more more' : list str) :
  startswith s (lit "DATA:") = true -> startswith s' (lit "DATA:") = true ->
  split 44 s = f0 :: f1 :: f2 :: more ->
  split 44 s' = f0 :: f1 :: f2 :: more' ->
  parse_data (PyStr s) = parse_data (PyStr s').
Proof.
  intros P P' F F'. unfold parse_data, parse_data_body. cbn [bind ret].
  rewrite P, P', F, F'. reflexivity.
Qed.

(** X15.  Whatever follows a third comma is ignored: a text with further
    comma-separated fields behind the three that are read parses to the same
    result as the text without them. *)
Theorem parser_ignores_trailing_fields (l0 v0 l1 v1 l2 v2 extra : str) :
  plain l0 -> plain v0 -> plain l1 -> plain v1 -> plain l2 -> plain v2 ->
  parse_data (PyStr (data_text l0 v0 l1 v1 l2 v2 ++ [44] ++ extra))
  = parse_data (PyStr (data_text l0 v0 l1 v1 l2 v2)).
Proof.
  intros P0 Q0 P1 Q1 P2 Q2.
  assert (C : forall l v, plain l -> plain v ->
                          Forall (fun c => c <> 44) (l ++ [58] ++ v)).
  { intros l v Pl Pv. apply List.Forall_app.
    split; [apply plain_no_comma, Pl |].
    constructor; [discriminate | apply plain_no_comma, Pv]. }
  apply (parse_same_fields _ _ (lit "DATA:" ++ l0 ++ [58] ++ v0)
           (l1 ++ [58] ++ v1) (l2 ++ [58] ++ v2) (split 44 extra) []).
  - unfold data_text. rewrite <- app_assoc. apply startswith_app.
  - unfold data_text. apply startswith_app.
  - unfold data_text.
    replace ((lit "DATA:" ++ l0 ++ [58] ++ v0 ++ [44] ++ l1 ++ [58] ++ v1
              ++ [44] ++ l2 ++ [58] ++ v2) ++ [44] ++ extra)
      with ((lit "DATA:" ++ l0 ++ [58] ++ v0)
            ++ 44 :: ((l1 ++ [58] ++ v1)
                      ++ 44 :: ((l2 ++ [58] ++ v2) ++ 44 :: extra)))
      by (rewrite <- !app_assoc; reflexivity).
    rewrite split_app.
    + rewrite split_app by (apply C; assumption).
      rewrite split_app by (apply C; assumption). reflexivity.
    + apply List.Forall_app. split; [| apply C; assumption].
      repeat constructor; discriminate.
  - apply data_text_fields; assumption.
Qed.

Lemma parser_ignores_trailing_fields_witness :
  parse_data (PyStr (data_text (lit "TEMP") (lit "26") (lit "HUM") (lit "28")
                               (lit "PPM") (lit "400")
                     ++ [44] ++ lit "BAT:3.3,x"))
  = parse_data (PyStr (data_text (lit "TEMP") (lit "26") (lit "HUM") (lit "28")
                                 (lit "PPM") (lit "400"))).
Proof.
  apply parser_ignores_trailing_fields;
    unfold plain; repeat constructor; discriminate.
Defined.

End Parser.

(** ** The de-duplicator *)

Section Dedup.

Import Gateway.
Local Open Scope Q_scope.

(** What the two callbacks have in common: a slot per key that holds the
    retained message and its time. *)
Context {K : Type} `{EqDecision K}.
Variable callback : APIReceiver -> XBeeMessage -> Q -> APIReceiver * outcome.
Variable key : XBeeMessage -> K.
Variable slot : APIReceiver -> K -> option (list N * Q).

Hypothesis suppressed_iff : forall self m t,
  snd (callback self m t) = Suppressed
  <-> match slot self (key m) with
      | Some (id, t0) => id = data m /\ t - t0 < 1
      | None => False
      end.
Hypothesis suppressed_keeps : forall self m t,
  snd (callback self m t) = Suppressed -> fst (callback self m t) = self.
Hypothesis retained_stores : forall self m t,
  snd (callback self m t) <> Suppressed ->
  forall k, slot (fst (callback self m t)) k
            = if decide (k = key m) then Some (data m, t) else slot self k.

Lemma combine_snoc {A B} (l : list A) (l' : list B) (a : A) (b : B) :
  length l = length l' ->
  combine (l ++ [a]) (l' ++ [b]) = combine l l' ++ [(a, b)].
Proof.
  revert l'. induction l as [| x l IH]; intros [| y l'] E;
    try discriminate E; [reflexivity |].
  simpl. rewrite IH by (simpl in E; lia). reflexivity.
Qed.

Lemma run_snoc (self : APIReceiver) (events : list event) (e : event) :
  run callback self (events ++ [e])
  = (fst (callback (fst (run callback self events)) (message e) (arrival e)),
     snd (run callback self events)
     ++ [snd (callback (fst (run callback self events)) (message e) (arrival e))]).
Proof.
  unfold run. rewrite fold_left_app. cbn [fold_left].
  destruct (fold_left _ events (self, [])) as [self' outcomes].
  cbn [fst snd].
  destruct (callback self' (message e) (arrival e)). reflexivity.
Qed.

Lemma run_length (self : APIReceiver) (events : list event) :
  length (snd (run callback self events)) = length events.
Proof.
  induction events as [| e events IH] using rev_ind; [reflexivity |].
  rewrite run_snoc. cbn [snd]. rewrite !length_app, IH. reflexivity.
Qed.

Lemma last_retained_snoc (mine' : event -> bool)
    (log : list (event * outcome)) (e : event) (o : outcome) :
  last_retained mine' (log ++ [(e, o)])
  = if mine' e && negb (suppressed o) then Some e else last_retained mine' log.
Proof. unfold last_retained. rewrite fold_left_app. reflexivity. Qed.

Lemma log_snoc (self : APIReceiver) (events : list event) (e : event) :
  combine (events ++ [e]) (snd (run callback self (events ++ [e])))
  = combine events (snd (run callback self events))
    ++ [(e, snd (callback (fst (run callback self events))
                          (message e) (arrival e)))].
Proof.
  rewrite run_snoc. cbn [snd].
  rewrite combine_snoc by (rewrite run_length; reflexivity). reflexivity.
Qed.

(** The slot of a key always holds the last retained delivery of that key. *)
Lemma slot_is_last_retained (self : APIReceiver) (events : list event) (k : K) :
  slot (fst (run callback self events)) k
  = match last_retained (of_key key k)
            (combine events (snd (run callback self events))) with
    | Some p => Some (data (message p), arrival p)
    | None => slot self k
    end.
Proof.
  induction events as [| e events IH] using rev_ind; [reflexivity |].
  rewrite log_snoc, last_retained_snoc. rewrite run_snoc. cbn [fst].
  destruct (snd (callback (fst (run callback self events))
                          (message e) (arrival e))) eqn:O.
  - rewrite suppressed_keeps by exact O. cbn [suppressed negb].
    rewrite andb_false_r. exact IH.
  - rewrite retained_stores by (rewrite O; discriminate).
    cbn [suppressed negb]. rewrite andb_true_r. unfold of_key.
    destruct (decide (k = key (message e))) as [-> | Hk].
    + rewrite bool_decide_eq_true_2 by reflexivity. reflexivity.
    + rewrite bool_decide_eq_false_2 by congruence. exact IH.
  - rewrite retained_stores by (rewrite O; discriminate).
    cbn [suppressed negb]. rewrite andb_true_r. unfold of_key.
    destruct (decide (k = key (message e))) as [-> | Hk].
    + rewrite bool_decide_eq_true_2 by reflexivity. reflexivity.
    + rewrite bool_decide_eq_false_2 by congruence. exact IH.
Qed.

(** A delivery is suppressed exactly when it repeats, within one second,
    the last retained delivery of its key. *)
Lemma suppressed_iff_duplicate (self : APIReceiver) (events : list event)
    (e : event) :
  (forall k, slot self k = None) ->
  snd (callback (fst (run callback self events)) (message e) (arrival e))
  = Suppressed
  <-> duplicate_of
        (last_retained (of_key key (key (message e)))
           (combine events (snd (run callback self events)))) e.
Proof.
  intros Empty. rewrite suppressed_iff, slot_is_last_retained, Empty.
  unfold duplicate_of. destruct (last_retained _ _); reflexivity.
Qed.

Hypothesis retained_outcome : forall self m t r,
  parse_data (PyByteArray (data m)) = Some r ->
  snd (callback self m t) <> Suppressed ->
  snd (callback self m t) = Processed (Some r).

Lemma first_is_retained (self : APIReceiver) (m : XBeeMessage) (t : Q) :
  slot self (key m) = None -> snd (callback self m t) <> Suppressed.
Proof. intros E O. apply suppressed_iff in O. rewrite E in O. exact O. Qed.

(** The same message twice, starting with an empty slot. *)
Lemma pair_outcomes (self : APIReceiver) (m : XBeeMessage) (r : reading)
    (t1 t2 : Q) :
  slot self (key m) = None ->
  parse_data (PyByteArray (data m)) = Some r ->
  snd (run callback self [{| message := m; arrival := t1 |};
                          {| message := m; arrival := t2 |}])
  = [Processed (Some r);
     if Qltb (t2 - t1) 1 then Suppressed else Processed (Some r)].
Proof.
  intros Empty Parse.
  change [{| message := m; arrival := t1 |}; {| message := m; arrival := t2 |}]
    with ([{| message := m; arrival := t1 |}]
          ++ [{| message := m; arrival := t2 |}]).
  rewrite run_snoc.
  change [{| message := m; arrival := t1 |}]
    with ([] ++ [{| message := m; arrival := t1 |}]).
  rewrite run_snoc. cbn [run fold_left fst snd app message arrival].
  pose proof (first_is_retained self m t1 Empty) as R1.
  rewrite (retained_outcome self m t1 r Parse R1). f_equal.
  pose proof (retained_stores self m t1 R1 (key m)) as St.
  rewrite decide_True in St by reflexivity.
  f_equal. destruct (Qltb (t2 - t1) 1) eqn:W.
  - apply suppressed_iff. rewrite St. split; [reflexivity |].
    apply Qltb_lt. exact W.
  - apply retained_outcome; [exact Parse |].
    intros O. apply suppressed_iff in O. rewrite St in O.
    destruct O as [_ O]. apply Qltb_lt in O. congruence.
Qed.

Lemma not_suppressed (o : outcome) : o <> Suppressed -> suppressed o = false.
Proof. destruct o; [contradiction | reflexivity | reflexivity]. Qed.

Lemma stream_snoc (m : XBeeMessage) (n : nat) :
  stream m (S n)
  = stream m n ++ [{| message := m; arrival := (9 * Z.of_nat n) # 10 |}].
Proof. unfold stream. rewrite seq_S, map_app. reflexivity. Qed.

Lemma stream_gap (n k : nat) :
  (k < n)%nat ->
  ((9 * Z.of_nat n) # 10) - ((9 * Z.of_nat k) # 10) < 1 <-> n = S k.
Proof.
  intros L. unfold Qlt, Qminus, Qplus, Qopp. cbn [Qnum Qden]. lia.
Qed.

(** Every 0.9 seconds: the deliveries with an odd index are suppressed, the
    others are retained, and the slot holds the last even index. *)
Lemma stream_outcomes (self : APIReceiver) (m : XBeeMessage) (n : nat) :
  slot self (key m) = None ->
  map suppressed (snd (run callback self (stream m n))) = map Nat.odd (seq 0 n)
  /\ (n <> 0%nat ->
      slot (fst (run callback self (stream m n))) (key m)
      = Some (data m, (9 * Z.of_nat (2 * Nat.div2 (n - 1))) # 10)).
Proof.
  intros Empty. induction n as [| n [Flags Slot]].
  - split; [reflexivity | contradiction].
  - rewrite stream_snoc, run_snoc. cbn [fst snd message arrival].
    rewrite map_app, Flags, seq_S, map_app. cbn [map Nat.add].
    set (self' := fst (run callback self (stream m n))) in *.
    set (t := (9 * Z.of_nat n) # 10).
    destruct n as [| n].
    + change self' with self in *.
      pose proof (first_is_retained self m t Empty) as R.
      rewrite (not_suppressed _ R). split; [reflexivity |].
      intros _. rewrite retained_stores by exact R.
      rewrite decide_True by reflexivity. reflexivity.
    + specialize (Slot ltac:(discriminate)).
      replace (S n - 1)%nat with n in Slot by lia.
      replace (S (S n) - 1)%nat with (S n) by lia.
      destruct (Nat.odd (S n)) eqn:Odd.
      * assert (E : (2 * Nat.div2 n = n)%nat).
        { rewrite Nat.odd_succ in Odd. apply Nat.even_spec in Odd.
          destruct Odd as [q ->]. rewrite Nat.div2_double. reflexivity. }
        assert (O : snd (callback self' m t) = Suppressed).
        { apply suppressed_iff. rewrite Slot. split; [reflexivity |].
          subst t. rewrite E. apply stream_gap; lia. }
        rewrite O. split; [reflexivity |].
        intros _. rewrite suppressed_keeps by exact O. rewrite Slot.
        rewrite Nat.odd_succ in Odd. apply Nat.even_spec in Odd.
        destruct Odd as [q ->]. rewrite Nat.div2_double.
        replace (S (2 * q)) with (2 * q + 1)%nat by lia.
        rewrite Nat.add_comm. change (1 + 2 * q)%nat with (S (2 * q)).
        rewrite Nat.div2_succ_double. reflexivity.
      * assert (D : (2 * Nat.div2 n < n)%nat /\ (2 * Nat.div2 (S n) = S n)%nat).
        { assert (Ev : Nat.even (S n) = true)
            by (rewrite <- Nat.negb_odd, Odd; reflexivity).
          apply Nat.even_spec in Ev. destruct Ev as [q Hq].
          destruct q as [| q]; [lia |].
          assert (n = S (2 * q)) as -> by lia.
          rewrite Nat.div2_succ_double.
          replace (S (S (2 * q))) with (2 * S q)%nat by lia.
          rewrite Nat.div2_double. lia. }
        destruct D as [D1 D2].
        assert (R : snd (callback self' m t) <> Suppressed).
        { intros O. apply suppressed_iff in O. rewrite Slot in O.
          destruct O as [_ O]. subst t. apply stream_gap in O; lia. }
        rewrite (not_suppressed _ R). split; [reflexivity |].
        intros _. rewrite retained_stores by exact R.
        rewrite decide_True by reflexivity. rewrite D2. reflexivity.
Qed.

End Dedup.

(** *** The two callbacks *)

Section Callbacks.

Import Gateway.
Local Open Scope Q_scope.

Lemma single_suppressed_iff (self : APIReceiver) (m : XBeeMessage) (t : Q) :
  snd (_data_received_callback self m t) = Suppressed
  <-> match slot_single self (key_single m) with
      | Some (id, t0) => id = data m /\ t - t0 < 1
      | None => False
      end.
Proof.
  unfold _data_received_callback, is_duplicate, slot_single.
  assert (Other : forall self',
    snd (match Part1.utf8_decode (data m) with
         | Some _ =>
           match parse_data (PyByteArray (data m)) with
           | Some (temperature, humidity, ppm) =>
             let temperatureF := fahrenheit temperature in
             (put self' (Values temperature humidity ppm temperatureF),
              Processed (Some (temperature, humidity, ppm)))
           | None => (self', Processed None)
           end
         | None => (self', Raised)
         end) = Suppressed <-> False).
  { intros self'. destruct (Part1.utf8_decode (data m));
      [destruct (parse_data _) as [[[? ?] ?] |] |]; simpl; split;
      (discriminate || contradiction). }
  destruct (last_frame_id self) as [id |]; [| apply Other].
  destruct (last_frame_time self) as [t0 |]; [| apply Other].
  destruct (bool_decide (id = data m)) eqn:Id; cbn [andb].
  - apply bool_decide_eq_true in Id.
    destruct (Qltb (t - t0) 1) eqn:W.
    + apply Qltb_lt in W. simpl. split; auto.
    + rewrite Other. apply Qltb_ge in W. split; [contradiction |].
      intros [_ L]. apply (Qlt_not_le _ _ L W).
  - apply bool_decide_eq_false in Id. rewrite Other.
    split; [contradiction | intros [C _]; contradiction].
Qed.

Lemma single_suppressed_keeps (self : APIReceiver) (m : XBeeMessage) (t : Q) :
  snd (_data_received_callback self m t) = Suppressed ->
  fst (_data_received_callback self m t) = self.
Proof.
  unfold _data_received_callback.
  destruct (is_duplicate self (data m) t); [reflexivity |].
  destruct (Part1.utf8_decode (data m)); [destruct (parse_data _) as [[[? ?] ?] |] |];
    discriminate.
Qed.

Lemma single_retained_stores (self : APIReceiver) (m : XBeeMessage) (t : Q) :
  snd (_data_received_callback self m t) <> Suppressed ->
  forall k, slot_single (fst (_data_received_callback self m t)) k
            = if decide (k = key_single m) then Some (data m, t)
              else slot_single self k.
Proof.
  intros R [].
  rewrite decide_True by reflexivity. revert R.
  unfold _data_received_callback.
  destruct (is_duplicate self (data m) t); [contradiction |]. intros _.
  destruct (Part1.utf8_decode (data m)); [destruct (parse_data _) as [[[? ?] ?] |] |];
    reflexivity.
Qed.

Lemma single_retained_outcome (self : APIReceiver) (m : XBeeMessage) (t : Q)
    (r : reading) :
  parse_data (PyByteArray (data m)) = Some r ->
  snd (_data_received_callback self m t) <> Suppressed ->
  snd (_data_received_callback self m t) = Processed (Some r).
Proof.
  intros Parse. unfold _data_received_callback.
  destruct (is_duplicate self (data m) t); [contradiction |]. intros _.
  rewrite Parse.
  destruct (Part1.utf8_decode (data m)) eqn:U;
    [destruct r as [[? ?] ?]; reflexivity |].
  unfold parse_data, parse_data_body in Parse. rewrite U in Parse.
  discriminate.
Qed.

Lemma multi_suppressed_iff (self : APIReceiver) (m : XBeeMessage) (t : Q) :
  snd (_data_received_callback_multi self m t) = Suppressed
  <-> match slot_multi self (key_multi m) with
      | Some (id, t0) => id = data m /\ t - t0 < 1
      | None => False
      end.
Proof.
  unfold _data_received_callback_multi, is_duplicate_multi, slot_multi,
    key_multi.
  assert (Other : forall self',
    snd (match parse_data (PyByteArray (data m)) with
         | Some (temperature, humidity, ppm) =>
           let temperatureF := fahrenheit temperature in
           (put self'
                (NodeValues (sender_of (remote_device m))
                            temperature humidity ppm temperatureF),
            Processed (Some (temperature, humidity, ppm)))
         | None => (self', Processed None)
         end) = Suppressed <-> False).
  { intros self'. destruct (parse_data _) as [[[? ?] ?] |]; simpl; split;
      (discriminate || contradiction). }
  destruct (last_frame_ids self !! sender_of (remote_device m)) as [id |];
    [| apply Other].
  destruct (last_frame_times self !! sender_of (remote_device m)) as [t0 |];
    [| apply Other].
  destruct (bool_decide (id = data m)) eqn:Id; cbn [andb].
  - apply bool_decide_eq_true in Id.
    destruct (Qltb (t - t0) 1) eqn:W.
    + apply Qltb_lt in W. simpl. split; auto.
    + rewrite Other. apply Qltb_ge in W. split; [contradiction |].
      intros [_ L]. apply (Qlt_not_le _ _ L W).
  - apply bool_decide_eq_false in Id. rewrite Other.
    split; [contradiction | intros [C _]; contradiction].
Qed.

Lemma multi_suppressed_keeps (self : APIReceiver) (m : XBeeMessage) (t : Q) :
  snd (_data_received_callback_multi self m t) = Suppressed ->
  fst (_data_received_callback_multi self m t) = self.
Proof.
  unfold _data_received_callback_multi.
  destruct (is_duplicate_multi self _ (data m) t); [reflexivity |].
  destruct (parse_data _) as [[[? ?] ?] |]; discriminate.
Qed.

Lemma multi_retained_stores (self : APIReceiver) (m : XBeeMessage) (t : Q) :
  snd (_data_received_callback_multi self m t) <> Suppressed ->
  forall k, slot_multi (fst (_data_received_callback_multi self m t)) k
            = if decide (k = key_multi m) then Some (data m, t)
              else slot_multi self k.
Proof.
  intros R k. revert R. unfold _data_received_callback_multi.
  destruct (is_duplicate_multi self _ (data m) t); [contradiction |].
  intros _. fold (key_multi m).
  assert (E : forall self',
    last_frame_ids self' = <[key_multi m := data m]> (last_frame_ids self) ->
    last_frame_times self' = <[key_multi m := t]> (last_frame_times self) ->
    slot_multi self' k
    = if decide (k = key_multi m) then Some (data m, t) else slot_multi self k).
  { intros self' Ids Times. unfold slot_multi. rewrite Ids, Times.
    destruct (decide (k = key_multi m)) as [-> | Hk].
    - rewrite !lookup_insert_eq. reflexivity.
    - rewrite !lookup_insert_ne by congruence. reflexivity. }
  destruct (parse_data _) as [[[? ?] ?] |]; apply E; reflexivity.
Qed.

Lemma multi_retained_outcome (self : APIReceiver) (m : XBeeMessage) (t : Q)
    (r : reading) :
  parse_data (PyByteArray (data m)) = Some r ->
  snd (_data_received_callback_multi self m t) <> Suppressed ->
  snd (_data_received_callback_multi self m t) = Processed (Some r).
Proof.
  intros Parse. unfold _data_received_callback_multi.
  destruct (is_duplicate_multi self _ (data m) t); [contradiction |].
  intros _. rewrite Parse. destruct r as [[? ?] ?]. reflexivity.
Qed.

Lemma slot_multi_init (k : string) : slot_multi APIReceiver_init k = None.
Proof. unfold slot_multi. cbn. rewrite lookup_empty. reflexivity. Qed.

Lemma slot_single_init (k : unit) : slot_single APIReceiver_init k = None.
Proof. reflexivity. Qed.

Lemma last_retained_ext (f g : event -> bool) (log : list (event * outcome)) :
  (forall e, f e = g e) -> last_retained f log = last_retained g log.
Proof.
  intros E. unfold last_retained. generalize (@None event).
  induction log as [| [e o] log IH]; intros found; [reflexivity |].
  cbn [fold_left]. rewrite E. apply IH.
Qed.

(** C4, as the code has it.  The per-node callback suppresses a delivery
    exactly when its bytes equal those of the last retained delivery from the
    same sender and it came strictly less than one second after it.  The
    single-slot callback applies the same test to the last retained delivery
    from any sender.  With either callback, a message that parses, delivered
    twice to a fresh receiver, gives one reading when the second delivery
    comes less than a second after the first and two readings when it comes
    a second or more after it. *)
Theorem dedup_rule (events : list event) (e : event) :
  (snd (_data_received_callback_multi
          (fst (run _data_received_callback_multi APIReceiver_init events))
          (message e) (arrival e)) = Suppressed
   <-> duplicate_of
         (last_retained (of_key key_multi (sender e))
            (combine events
               (snd (run _data_received_callback_multi APIReceiver_init
                         events)))) e)
  /\ (snd (_data_received_callback
             (fst (run _data_received_callback APIReceiver_init events))
             (message e) (arrival e)) = Suppressed
      <-> duplicate_of
            (last_retained (fun _ => true)
               (combine events
                  (snd (run _data_received_callback APIReceiver_init events))))
            e)
  /\ (forall m r t1 t2,
        parse_data (PyByteArray (data m)) = Some r ->
        let twice := [{| message := m; arrival := t1 |};
                      {| message := m; arrival := t2 |}] in
        (t2 - t1 < 1 ->
         snd (run _data_received_callback_multi APIReceiver_init twice)
         = [Processed (Some r); Suppressed]
         /\ snd (run _data_received_callback APIReceiver_init twice)
            = [Processed (Some r); Suppressed])
        /\ (1 <= t2 - t1 ->
            snd (run _data_received_callback_multi APIReceiver_init twice)
            = [Processed (Some r); Processed (Some r)]
            /\ snd (run _data_received_callback APIReceiver_init twice)
               = [Processed (Some r); Processed (Some r)])).
Proof.
  split; [| split].
  - apply (suppressed_iff_duplicate _ key_multi slot_multi
             multi_suppressed_iff multi_suppressed_keeps multi_retained_stores).
    exact slot_multi_init.
  - rewrite (last_retained_ext (fun _ => true) (of_key key_single tt))
      by reflexivity.
    apply (suppressed_iff_duplicate _ key_single slot_single
             single_suppressed_iff single_suppressed_keeps
             single_retained_stores APIReceiver_init events e).
    exact slot_single_init.
  - intros m r t1 t2 Parse twice.
    pose proof (pair_outcomes _ key_multi slot_multi
                  multi_suppressed_iff multi_retained_stores
                  multi_retained_outcome APIReceiver_init m r t1 t2
                  (slot_multi_init _) Parse) as M.
    pose proof (pair_outcomes _ key_single slot_single
                  single_suppressed_iff single_retained_stores
                  single_retained_outcome APIReceiver_init m r t1 t2
                  (slot_single_init _) Parse) as S.
    fold twice in M, S. rewrite M, S. split; intros W.
    + apply Qltb_lt in W. rewrite W. split; reflexivity.
    + apply Qltb_ge in W. rewrite W. split; reflexivity.
Qed.

Lemma dedup_rule_witness :
  (snd (run _data_received_callback_multi APIReceiver_init
          [{| message := node_a_message; arrival := 0 |};
           {| message := node_a_message; arrival := 1 # 2 |}])
   = [Processed (Some node_reading); Suppressed]
   /\ snd (run _data_received_callback APIReceiver_init
             [{| message := node_a_message; arrival := 0 |};
              {| message := node_a_message; arrival := 1 # 2 |}])
      = [Processed (Some node_reading); Suppressed])
  /\ (snd (run _data_received_callback_multi APIReceiver_init
             [{| message := node_a_message; arrival := 0 |};
              {| message := node_a_message; arrival := 3 # 2 |}])
      = [Processed (Some node_reading); Processed (Some node_reading)]
      /\ snd (run _data_received_callback APIReceiver_init
                [{| message := node_a_message; arrival := 0 |};
                 {| message := node_a_message; arrival := 3 # 2 |}])
         = [Processed (Some node_reading); Processed (Some node_reading)]).
Proof.
  split.
  - apply (proj1 (proj2 (proj2 (dedup_rule
             [] {| message := node_a_message; arrival := 0 |}))
             node_a_message node_reading 0 (1 # 2) eq_refl)).
    reflexivity.
  - apply (proj2 (proj2 (proj2 (dedup_rule
             [] {| message := node_a_message; arrival := 0 |}))
             node_a_message node_reading 0 (3 # 2) eq_refl)).
    discriminate.
Defined.

(** C4, as stated, fails on the callback that the receiver registers: node
    B's first delivery, half a second after node A sent the same text, is
    suppressed although no delivery from node B was retained before. *)
Lemma dedup_counterexample :
  let events := [{| message := node_a_message; arrival := 0 |}] in
  let e := {| message := node_b_message; arrival := 1 # 2 |} in
  let log := combine events
               (snd (run _data_received_callback APIReceiver_init events)) in
  sender e <> sender {| message := node_a_message; arrival := 0 |}
  /\ snd (_data_received_callback
            (fst (run _data_received_callback APIReceiver_init events))
            (message e) (arrival e)) = Suppressed
  /\ last_retained (of_key key_multi (sender e)) log = None
  /\ ~ duplicate_of (last_retained (of_key key_multi (sender e)) log) e.
Proof.
  cbv zeta. split; [| split; [| split]].
  - vm_compute. discriminate.
  - vm_compute. reflexivity.
  - vm_compute. reflexivity.
  - vm_compute. intros C. exact C.
Qed.

(** C10.  A suppressed delivery leaves the receiver, and so the retained
    bytes and time, exactly as they were, with either callback.  Hence the
    one-second window runs from the last retained delivery: when the same
    message comes every 0.9 seconds, the deliveries with an odd index are
    suppressed and those with an even index are retained, one every 1.8
    seconds, and the stream is never suppressed for good. *)
Theorem suppression_keeps_slot :
  (forall self m t,
      snd (_data_received_callback self m t) = Suppressed ->
      fst (_data_received_callback self m t) = self)
  /\ (forall self m t,
        snd (_data_received_callback_multi self m t) = Suppressed ->
        fst (_data_received_callback_multi self m t) = self)
  /\ (forall m n,
        map suppressed
            (snd (run _data_received_callback APIReceiver_init (stream m n)))
        = map Nat.odd (seq 0 n))
  /\ (forall m n,
        map suppressed
            (snd (run _data_received_callback_multi APIReceiver_init
                      (stream m n)))
        = map Nat.odd (seq 0 n)).
Proof.
  split; [exact single_suppressed_keeps |].
  split; [exact multi_suppressed_keeps |].
  split; intros m n.
  - apply (stream_outcomes _ key_single slot_single single_suppressed_iff
             single_suppressed_keeps single_retained_stores).
    reflexivity.
  - apply (stream_outcomes _ key_multi slot_multi multi_suppressed_iff
             multi_suppressed_keeps multi_retained_stores).
    apply slot_multi_init.
Qed.

Lemma suppression_keeps_slot_witness :
  let retained := fst (_data_received_callback APIReceiver_init node_a_message 0) in
  let retained' :=
    fst (_data_received_callback_multi APIReceiver_init node_a_message 0) in
  fst (_data_received_callback retained node_a_message (9 # 10)) = retained
  /\ fst (_data_received_callback_multi retained' node_a_message (9 # 10))
     = retained'.
Proof.
  cbv zeta. split.
  - apply (proj1 suppression_keeps_slot). reflexivity.
  - apply (proj1 (proj2 suppression_keeps_slot)). vm_compute. reflexivity.
Defined.

(** *** What the callbacks do to the queue and to other senders *)


Lemma multi_queue_step (self : APIReceiver) (e : event) :
  data_queue (fst (_data_received_callback_multi self (message e) (arrival e)))
  = option_map
      (fun q => q ++ queued item_multi
                       [(e, snd (_data_received_callback_multi
                                   self (message e) (arrival e)))])
      (data_queue self).
Proof.
  assert (Same : forall q : option (list queue_item),
             q = option_map (fun q => q ++ []) q)
    by (intros [q |]; cbn; [rewrite app_nil_r |]; reflexivity).
  unfold _data_received_callback_multi.
  destruct (is_duplicate_multi self _ (data (message e)) (arrival e));
    [apply Same |].
  destruct (parse_data (PyByteArray (data (message e)))) as [[[? ?] ?] |];
    [| apply Same].
  cbn. destruct (data_queue self); reflexivity.
Qed.



(** X9.  The per-node callback never touches what is remembered for
    another sender: the two dictionary entries of every key other than the
    message's own are the same before and after. *)
Theorem multi_leaves_other_senders
    (self : APIReceiver) (m : XBeeMessage) (t : Q) (node : string) :
  node <> sender_of (remote_device m) ->
  last_frame_ids (fst (_data_received_callback_multi self m t)) !! node
  = last_frame_ids self !! node
  /\ last_frame_times (fst (_data_received_callback_multi self m t)) !! node
     = last_frame_times self !! node.
Proof.
  intros Hn. unfold _data_received_callback_multi.
  destruct (is_duplicate_multi self _ (data m) t); [split; reflexivity |].
  destruct (parse_data (PyByteArray (data m))) as [[[? ?] ?] |];
    cbn [fst put last_frame_ids last_frame_times];
    rewrite !lookup_insert_ne by congruence; split; reflexivity.
Qed.

Lemma multi_leaves_other_senders_witness :
  last_frame_ids
    (fst (_data_received_callback_multi
            (fst (_data_received_callback_multi APIReceiver_init
                    node_a_message 0))
            node_b_message 1)) !! "0013A20042010917"%string
  = last_frame_ids
      (fst (_data_received_callback_multi APIReceiver_init node_a_message 0))
    !! "0013A20042010917"%string.
Proof.
  apply (proj1 (multi_leaves_other_senders _ node_b_message 1
                  "0013A20042010917"%string ltac:(discriminate))).
Defined.

End Callbacks.

(** ** The hand-over to the upload loop *)

Section HandOver.

Import Gateway.

Lemma act_accounted (state : APIReceiver * uploader) (a : action) :
  data_queue (fst state) <> None ->
  data_queue (fst (act state a)) <> None
  /\ accounted (act state a)
     = accounted state ++ match a with Put r => [r] | _ => [] end.
Proof.
  destruct state as [self u]. unfold accounted. cbn [fst snd].
  destruct (data_queue self) as [q |] eqn:Q; [| contradiction]. intros _.
  assert (Same : data_queue (fst (self, u)) <> None
                 /\ concat (averaged (snd (self, u))) ++ data_buffer (snd (self, u))
                    ++ match data_queue (fst (self, u)) with
                       | Some q => q
                       | None => []
                       end
                    = (concat (averaged u) ++ data_buffer u ++ q) ++ []).
  { cbn [fst snd]. rewrite Q, app_nil_r. split; [discriminate | reflexivity]. }
  destruct a as [r | | current_time]; cbn [act].
  - cbn [fst snd put data_queue]. rewrite Q. cbn [option_map].
    split; [discriminate |]. rewrite !app_assoc. reflexivity.
  - destruct (ended u); [exact Same |].
    unfold get. rewrite Q. destruct q as [| new_data rest]; [exact Same |].
    cbn [fst snd data_queue data_buffer averaged]. split; [discriminate |].
    repeat (rewrite <- app_assoc || rewrite app_nil_r). reflexivity.
  - destruct (ended u); [exact Same |].
    unfold upload.
    destruct (upload_due u current_time); [| exact Same].
    destruct (forallb summable (data_buffer u));
      cbn [fst snd data_buffer averaged]; rewrite Q;
      (split; [discriminate |]).
    + rewrite concat_app. cbn [concat].
      repeat (rewrite <- app_assoc || rewrite app_nil_r). reflexivity.
    + repeat (rewrite <- app_assoc || rewrite app_nil_r). reflexivity.
Qed.

(** X13.  When put, get and the averaging step are taken one at a time in
    any order, the readings put so far are, in order and each exactly once,
    the averaged batches followed by the buffer and the queue. *)
Lemma readings_conserved (state : APIReceiver * uploader)
    (actions : list action) :
  data_queue (fst state) <> None ->
  accounted (fold_left act actions state) = accounted state ++ puts actions.
Proof.
  revert state. induction actions as [| a actions IH]; intros state Q.
  - simpl. rewrite app_nil_r. reflexivity.
  - cbn [fold_left puts flat_map]. destruct (act_accounted state a Q) as [Q' A].
    rewrite IH by exact Q'. rewrite A, <- app_assoc. reflexivity.
Qed.

Lemma readings_conserved_witness :
  let r := node_values in
  let start :=
    ({| last_frame_id := None; last_frame_time := None;
        last_frame_ids := ∅; last_frame_times := ∅;
        data_queue := Some [] |},
     {| data_buffer := []; last_upload_time := 0; averaged := [];
        ended := false |}) in
  accounted (fold_left act [Put r; Get; Put r; Tick 20; Get; Put r] start)
  = accounted start ++ puts [Put r; Get; Put r; Tick 20; Get; Put r].
Proof. cbv zeta. apply readings_conserved. discriminate. Defined.

Local Open Scope Q_scope.

(** A loop that has ended stays as it is. *)
Lemma ended_stays (actions : list action) (state : APIReceiver * uploader) :
  ended (snd state) = true ->
  snd (fold_left act actions state) = snd state.
Proof.
  revert state. induction actions as [| a actions IH]; intros [self u] E;
    [reflexivity |].
  cbn [fold_left snd] in *.
  assert (Step : snd (act (self, u) a) = u)
    by (destruct a; cbn [act]; rewrite ?E; reflexivity).
  rewrite IH; rewrite Step; [reflexivity | exact E].
Qed.

Lemma quiet_ticks_average_nothing (actions : list action)
    (state : APIReceiver * uploader) :
  Forall (fun t => t - last_upload_time (snd state) < UPLOAD_PERIOD)
         (ticks actions) ->
  averaged (snd (fold_left act actions state)) = averaged (snd state)
  /\ last_upload_time (snd (fold_left act actions state))
     = last_upload_time (snd state).
Proof.
  revert state. induction actions as [| a actions IH]; intros [self u] Q;
    [split; reflexivity |].
  cbn [fold_left].
  assert (Step : averaged (snd (act (self, u) a)) = averaged u
                 /\ last_upload_time (snd (act (self, u) a))
                    = last_upload_time u).
  { destruct a as [r | | t]; cbn [act snd].
    - split; reflexivity.
    - destruct (ended u); [split; reflexivity |].
      unfold get. destruct (data_queue self) as [[| ? ?] |]; split; reflexivity.
    - destruct (ended u); [split; reflexivity |].
      cbn [ticks flat_map app snd] in Q. apply Forall_inv in Q.
      unfold upload, upload_due.
      destruct (Qle_bool UPLOAD_PERIOD (t - last_upload_time u)) eqn:D;
        [| split; reflexivity].
      apply Qle_bool_iff in D. exfalso. apply (Qlt_not_le _ _ Q D). }
  destruct Step as [SA ST].
  destruct (IH (act (self, u) a)) as [A T].
  - rewrite ST. cbn [snd] in Q.
    destruct a; cbn [ticks flat_map app] in Q; [exact Q | exact Q |].
    apply Forall_inv_tail in Q. exact Q.
  - rewrite A, T. split; assumption.
Qed.

(** X12.  Once the averaging branch has been taken at time [t], whatever is
    put, got and checked afterwards, no further batch is averaged while
    every time check comes less than 15 seconds after [t]; and when the loop
    was running and the buffer held 4-tuples only, the batch averaged at [t]
    is the whole buffer. *)
Theorem one_batch_per_period
    (self : APIReceiver) (u : uploader) (t : Q) (actions : list action) :
  upload_due u t = true ->
  Forall (fun t' => t' - t < UPLOAD_PERIOD) (ticks actions) ->
  averaged (snd (fold_left act actions (act (self, u) (Tick t))))
  = averaged (snd (act (self, u) (Tick t)))
  /\ (ended u = false -> forallb summable (data_buffer u) = true ->
      averaged (snd (fold_left act actions (act (self, u) (Tick t))))
      = averaged u ++ [data_buffer u]).
Proof.
  intros Due Q.
  assert (A : averaged (snd (fold_left act actions (act (self, u) (Tick t))))
              = averaged (snd (act (self, u) (Tick t)))).
  { cbn [act]. destruct (ended u) eqn:E.
    - rewrite ended_stays by exact E. reflexivity.
    - unfold upload. rewrite Due.
      destruct (forallb summable (data_buffer u)).
      + apply quiet_ticks_average_nothing. exact Q.
      + rewrite ended_stays by reflexivity. reflexivity. }
  split; [exact A |].
  intros E S. rewrite A. cbn [act]. rewrite E. unfold upload.
  rewrite Due, S. reflexivity.
Qed.

Lemma one_batch_per_period_witness :
  let r := node_values in
  let self :=
    {| last_frame_id := None; last_frame_time := None;
       last_frame_ids := ∅; last_frame_times := ∅;
       data_queue := Some [] |} in
  let u := {| data_buffer := [r]; last_upload_time := 0; averaged := [];
              ended := false |} in
  averaged (snd (fold_left act [Put r; Get; Tick 30; Put r; Tick 34]
                           (act (self, u) (Tick 20))))
  = averaged u ++ [data_buffer u].
Proof.
  cbv zeta.
  refine (proj2 (one_batch_per_period _ _ 20 _ _ _) _ _);
    [reflexivity | repeat constructor | reflexivity | reflexivity].
Defined.

(** X17.  The tuples of the per-node callback do not go through the upload
    loop.  When a delivery to the per-node callback ends with a parsed
    reading and the loop, still running, gets everything that is queued and
    then reaches a time check 15 seconds or more after the last upload, the
    first sum meets the sender key and raises: the loop ends there, and
    whatever is put, got and checked afterwards no batch is averaged any
    more. *)
Theorem per_node_reading_ends_upload_loop
    (self : APIReceiver) (u : uploader) (m : XBeeMessage) (t now : Q)
    (r : reading) (queue : list queue_item) (actions : list action) :
  data_queue self = Some queue ->
  snd (_data_received_callback_multi self m t) = Processed (Some r) ->
  ended u = false ->
  UPLOAD_PERIOD <= now - last_upload_time u ->
  let state :=
    (fst (_data_received_callback_multi self m t), u) in
  let gets := repeat Get (S (length queue)) in
  ended (snd (fold_left act (gets ++ [Tick now] ++ actions) state)) = true
  /\ averaged (snd (fold_left act (gets ++ [Tick now] ++ actions) state))
     = averaged u.
Proof.
  intros Q O E Due state gets.
  pose proof (multi_queue_step self {| message := m; arrival := t |}) as Step.
  cbn [message arrival] in Step. rewrite O, Q in Step.
  destruct r as [[temperature humidity] ppm].
  cbn [queued flat_map item_multi option_map] in Step. rewrite app_nil_r in Step.
  set (item := NodeValues _ temperature humidity ppm _) in Step.
  set (self' := fst (_data_received_callback_multi self m t)) in *.
  assert (Drain : forall (pending : list queue_item) (s : APIReceiver)
                         (v : uploader),
             data_queue s = Some pending -> ended v = false ->
             exists s',
               fold_left act (repeat Get (length pending)) (s, v)
               = (s', {| data_buffer := data_buffer v ++ pending;
                         last_upload_time := last_upload_time v;
                         averaged := averaged v;
                         ended := false |})).
  { induction pending as [| p pending IH]; intros s v Qs Ev.
    - exists s. cbn. rewrite app_nil_r. destruct v. cbn in Ev. subst.
      reflexivity.
    - cbn [length repeat fold_left act]. rewrite Ev. unfold get. rewrite Qs.
      edestruct IH as [s' ->]; [reflexivity | exact Ev |].
      exists s'. cbn [data_buffer last_upload_time averaged].
      rewrite <- app_assoc. reflexivity. }
  destruct (Drain (queue ++ [item]) self' u Step E) as [s' D].
  rewrite length_app in D. cbn [length] in D.
  rewrite Nat.add_1_r in D.
  unfold gets, state. rewrite fold_left_app, D.
  cbn [app fold_left act ended].
  assert (U : upload {| data_buffer := data_buffer u ++ queue ++ [item];
                        last_upload_time := last_upload_time u;
                        averaged := averaged u;
                        ended := false |} now
              = {| data_buffer := data_buffer u ++ queue ++ [item];
                   last_upload_time := last_upload_time u;
                   averaged := averaged u;
                   ended := true |}).
  { unfold upload, upload_due. cbn [data_buffer last_upload_time averaged].
    apply Qle_bool_iff in Due. rewrite Due.
    rewrite !length_app. cbn [length].
    replace (length (data_buffer u) + (length queue + 1) =? 0)%nat with false
      by (symmetry; apply Nat.eqb_neq; lia).
    cbn [negb andb].
    rewrite !forallb_app. cbn [forallb summable item].
    rewrite !andb_false_r. reflexivity. }
  rewrite U. rewrite ended_stays by reflexivity. split; reflexivity.
Qed.

Lemma per_node_reading_ends_upload_loop_witness :
  let self :=
    {| last_frame_id := None; last_frame_time := None;
       last_frame_ids := ∅; last_frame_times := ∅;
       data_queue := Some [] |} in
  let u := {| data_buffer := []; last_upload_time := 0; averaged := [];
              ended := false |} in
  let state := (fst (_data_received_callback_multi self node_a_message 5), u) in
  ended (snd (fold_left act ([Get] ++ [Tick 20] ++ [Put node_a_values; Get; Tick 40])
                        state)) = true
  /\ averaged (snd (fold_left act ([Get] ++ [Tick 20]
                                   ++ [Put node_a_values; Get; Tick 40])
                              state))
     = [].
Proof.
  cbv zeta.
  refine (per_node_reading_ends_upload_loop _ _ node_a_message 5 20
            node_reading [] _ _ _ _ _);
    [reflexivity | vm_compute; reflexivity | reflexivity |
     vm_compute; discriminate].
Defined.

End HandOver.

(** ** Part 1: [update] from bytes to stored values *)

Section Part1Update.

Import Py Part1 Part1App.

Lemma process_generic_ascii (address network text : list N) (options : N) :
  length address = 8%nat -> length network = 2%nat ->
  Forall (fun b => b < 0x80) text ->
  _process_rx_packet (RX_PACKET :: address ++ network ++ [options] ++ text)
  = Some text.
Proof.
  intros H H' A.
  do 9 (destruct address as [| ? address]; try discriminate H).
  do 3 (destruct network as [| ? network]; try discriminate H').
  change (_process_rx_packet _) with (utf8_decode text).
  apply utf8_decode_ascii. exact A.
Qed.

Lemma read_encoded (payload : list N) :
  _read_api_frame [] (encode_frame payload) = (Some payload, []).
Proof.
  unfold _read_api_frame, encode_frame, wire_frame. cbn [app].
  pose proof (read_loop_frame _ _ (expected_checksum payload) payload []
                (length_field_bytes (N.of_nat (length payload)))) as R.
  unfold wire_frame in R. rewrite app_nil_r in R. rewrite R.
  rewrite N.eqb_refl. reflexivity.
Qed.

(** X5.  From bytes to values: a well-formed generic receive frame whose
    data is ASCII text that the parser accepts makes [update] return [True],
    store the three values and the time, and leave the buffer empty. *)
Theorem update_stores_reading
    (self : APIReceiver) (address network text : list N) (options : N)
    (t h p : pyfloat) (now : Q) :
  buffer self = [] ->
  length address = 8%nat -> length network = 2%nat ->
  Forall (fun b => b < 0x80) text ->
  N.of_nat (length text) + 12 < 65536 ->
  parse_data_string text = Some (t, h, p) ->
  update self
    (encode_frame (RX_PACKET :: address ++ network ++ [options] ++ text)) now
  = ({| temperature := t; humidity := h; ppm := p;
        last_received_time := now; buffer := [] |}, true).
Proof.
  intros B H H' A _ Parse. unfold update. rewrite B, read_encoded.
  cbv beta iota zeta.
  rewrite process_generic_ascii by assumption.
  destruct text as [| c text]; [discriminate Parse |].
  cbv beta iota zeta. rewrite Parse. reflexivity.
Qed.

Lemma update_stores_reading_witness :
  update APIReceiver_init
    (encode_frame (RX_PACKET :: [0; 0x13; 0xA2; 0; 0x42; 1; 9; 0x17]
                     ++ [0xFF; 0xFE] ++ [1]
                     ++ lit "DATA:TEMP:26,HUM:28,PPM:400")) (5 # 1)
  = ({| temperature := Finite (26 # 1); humidity := Finite (28 # 1);
        ppm := Finite (400 # 1); last_received_time := 5 # 1;
        buffer := [] |}, true).
Proof.
  apply update_stores_reading; try reflexivity.
  repeat constructor.
Defined.

Lemma frame_prefix_waits (hi lo trailing : N) (payload chunk1 chunk2 : list N) :
  N.lor (N.shiftl hi 8) lo = N.of_nat (length payload) ->
  chunk2 <> [] ->
  chunk1 ++ chunk2 = wire_frame hi lo payload trailing ->
  read_loop chunk1 = (None, chunk1).
Proof.
  intros Hlen H2 Hsplit.
  destruct (le_lt_dec (length chunk1) 3) as [S | L];
    [apply read_loop_short; exact S |].
  assert (Len : (length chunk1 + length chunk2 = length payload + 4)%nat).
  { rewrite <- length_app, Hsplit. unfold wire_frame. simpl.
    rewrite length_app. simpl. lia. }
  assert (L2 : (0 < length chunk2)%nat)
    by (destruct chunk2; [contradiction | simpl; lia]).
  apply read_loop_partial; [exact L | |].
  - rewrite <- (at_index_app chunk1 chunk2) by lia. rewrite Hsplit. reflexivity.
  - rewrite <- (total_frame_size_app chunk1 chunk2) by lia. rewrite Hsplit.
    pose proof (frame_total hi lo trailing payload [] Hlen) as T.
    rewrite app_nil_r in T. rewrite T. lia.
Qed.

(** X6.  A frame that arrives in two pieces: the call that brings the first
    piece returns [False], keeps the piece in the buffer and touches nothing
    else; the call that brings the rest then does exactly what a single call
    with the whole frame would have done. *)
Theorem update_waits_for_rest_of_frame
    (self : APIReceiver) (hi lo trailing : N) (payload chunk1 chunk2 : list N)
    (now1 now2 : Q) :
  buffer self = [] ->
  N.lor (N.shiftl hi 8) lo = N.of_nat (length payload) ->
  chunk1 <> [] -> chunk2 <> [] ->
  chunk1 ++ chunk2 = wire_frame hi lo payload trailing ->
  update self chunk1 now1 = (set_buffer self chunk1, false)
  /\ update (set_buffer self chunk1) chunk2 now2
     = update self (chunk1 ++ chunk2) now2.
Proof.
  intros B Hlen H1 H2 Hsplit. split.
  - unfold update, _read_api_frame. rewrite B.
    destruct chunk1 as [| c chunk1]; [contradiction |]. cbn [app].
    rewrite (frame_prefix_waits hi lo trailing payload (c :: chunk1) chunk2)
      by assumption.
    reflexivity.
  - unfold update, _read_api_frame. cbn [buffer set_buffer]. rewrite B.
    destruct chunk2 as [| c2 chunk2]; [contradiction |].
    destruct chunk1 as [| c1 chunk1]; [contradiction |].
    reflexivity.
Qed.

Lemma update_waits_for_rest_of_frame_witness :
  update APIReceiver_init [0x7E; 0; 1] 1
  = (set_buffer APIReceiver_init [0x7E; 0; 1], false)
  /\ update (set_buffer APIReceiver_init [0x7E; 0; 1]) [0x41; 0xBE] 2
     = update APIReceiver_init ([0x7E; 0; 1] ++ [0x41; 0xBE]) 2.
Proof.
  apply (update_waits_for_rest_of_frame APIReceiver_init 0 1 0xBE [0x41]);
    (reflexivity || discriminate).
Defined.

(** X7.  A call of [update] that returns [False] leaves the stored
    temperature, humidity, ppm and time as they were, whatever the bytes
    were; only the buffer may change. *)
Theorem update_false_keeps_values (self : APIReceiver) (uart : list N) (now : Q) :
  snd (update self uart now) = false ->
  fst (update self uart now)
  = set_buffer self (snd (_read_api_frame (buffer self) uart)).
Proof.
  unfold update.
  destruct (_read_api_frame (buffer self) uart) as [[[| b frame_data] |] rest];
    try reflexivity.
  destruct (_process_rx_packet (b :: frame_data)) as [[| c data_string] |];
    try reflexivity.
  destruct (parse_data_string (c :: data_string)) as [[[t h] p] |];
    [discriminate | reflexivity].
Qed.

Lemma update_false_keeps_values_witness :
  fst (update APIReceiver_init [0x7E; 0; 1; 0x41; 0xBE] 1)
  = set_buffer APIReceiver_init
      (snd (_read_api_frame (buffer APIReceiver_init) [0x7E; 0; 1; 0x41; 0xBE])).
Proof. apply update_false_keeps_values. reflexivity. Defined.

End Part1Update.

(** ** Sender keys and the AO mode text *)

Section Texts.

Import Gateway GatewayInfo.

Lemma sender_of_app (a b : string) :
  sender_of (a ++ b) = (sender_of a ++ sender_of b)%string.
Proof.
  induction a as [| c a IH]; [reflexivity |].
  change (sender_of (String c a ++ b))
    with (if isalnum c then String (upper c) (sender_of (a ++ b))
          else sender_of (a ++ b)).
  change (sender_of (String c a))
    with (if isalnum c then String (upper c) (sender_of a) else sender_of a).
  rewrite IH. destruct (isalnum c); reflexivity.
Qed.

Lemma upper_alnum (c : ascii) :
  isalnum c = true -> isalnum (upper c) = true /\ upper (upper c) = upper c.
Proof.
  destruct c as [[] [] [] [] [] [] [] []]; vm_compute; intros E;
    (discriminate E || (split; reflexivity)).
Qed.

Lemma sender_of_idempotent (s : string) : sender_of (sender_of s) = sender_of s.
Proof.
  induction s as [| c s IH]; [reflexivity |].
  cbn [sender_of]. destruct (isalnum c) eqn:E; [| exact IH].
  destruct (upper_alnum c E) as [A U].
  cbn [sender_of]. rewrite A, U, IH. reflexivity.
Qed.

(** X10.  The sender key of an ASCII address: characters that are neither
    letters nor digits do not count, wherever they stand; the key of a text
    put together from two pieces is the two keys put together; and the key
    of a key is the key itself. *)
Theorem sender_key_is_normal_form (a b : string) (c : ascii) :
  is_ascii a = true -> is_ascii b = true -> N_of_ascii c < 128 ->
  sender_of (a ++ b) = (sender_of a ++ sender_of b)%string
  /\ (isalnum c = false -> sender_of (a ++ String c b) = sender_of (a ++ b))
  /\ sender_of (sender_of a) = sender_of a.
Proof.
  intros _ _ _. split; [apply sender_of_app |].
  split; [| apply sender_of_idempotent].
  intros E. rewrite !sender_of_app. cbn [sender_of]. rewrite E. reflexivity.
Qed.

Lemma sender_key_is_normal_form_witness :
  sender_of ("00-13-a2" ++ String ":" "00-42") = sender_of ("00-13-a2" ++ "00-42")
  /\ sender_of (sender_of "00-13-a2") = sender_of "00-13-a2".
Proof.
  destruct (sender_key_is_normal_form "00-13-a2" "00-42" ":"
              eq_refl eq_refl eq_refl)
    as (_ & Drop & Idem).
  split; [apply Drop; reflexivity | exact Idem].
Defined.

Lemma flag_bit_low (value bit : N) :
  N.land 63 (N.shiftl 1 bit) = N.shiftl 1 bit ->
  N.land (N.land value 63) (N.shiftl 1 bit) = N.land value (N.shiftl 1 bit).
Proof. intros E. rewrite <- N.land_assoc, E. reflexivity. Qed.

Lemma decode_ao_mode_low (value : N) :
  value <> 0 -> N.land value 63 <> 0 ->
  decode_ao_mode value = decode_ao_mode (N.land value 63).
Proof.
  intros V L. unfold decode_ao_mode.
  destruct (N.eqb_spec value 0); [contradiction |].
  destruct (N.eqb_spec (N.land value 63) 0); [contradiction |].
  unfold AO_FLAGS. cbn [List.filter fst].
  rewrite !flag_bit_low by reflexivity. reflexivity.
Qed.

Lemma decode_ao_mode_flags_nonempty (value : N) :
  value <> 0 -> value < 64 -> decode_ao_mode value <> ""%string.
Proof.
  intros V L.
  assert (All : forallb (fun n => negb (String.eqb (decode_ao_mode (N.of_nat n)) ""))
                        (seq 1 63) = true) by (vm_compute; reflexivity).
  rewrite forallb_forall in All.
  specialize (All (N.to_nat value)).
  rewrite N2Nat.id in All. intros E. rewrite E in All.
  assert (I : In (N.to_nat value) (seq 1 63)) by (apply in_seq; lia).
  specialize (All I). discriminate All.
Qed.

(** X11.  The AO mode text.  Bits 6 and above play no part: a value that
    sets at least one of the six known flags reads the same as its six low
    bits.  The text is empty exactly for the values that are not 0 and set
    none of the six flags; 0 itself reads as the legacy mode. *)
Theorem ao_mode_text_uses_six_bits (value : N) :
  (N.land value 63 <> 0 ->
   decode_ao_mode value = decode_ao_mode (N.land value 63))
  /\ (decode_ao_mode value = ""%string <-> value <> 0 /\ N.land value 63 = 0)
  /\ decode_ao_mode 0 = "Legacy mode (0x90 packets)"%string.
Proof.
  split; [| split; [| reflexivity]].
  - intros L. apply decode_ao_mode_low; [| exact L].
    intros ->. apply L. reflexivity.
  - split.
    + intros E. destruct (N.eq_dec value 0) as [-> | V]; [discriminate E |].
      split; [exact V |].
      destruct (N.eq_dec (N.land value 63) 0) as [Z | L]; [exact Z |].
      exfalso. rewrite decode_ao_mode_low in E by assumption.
      revert E. apply decode_ao_mode_flags_nonempty; [exact L |].
      change 63 with (N.ones 6). rewrite N.land_ones.
      apply N.mod_lt. discriminate.
    + intros [V Z]. unfold decode_ao_mode.
      destruct (N.eqb_spec value 0); [contradiction |].
      unfold AO_FLAGS. cbn [List.filter fst].
      rewrite <- !(flag_bit_low value) by reflexivity. rewrite Z.
      reflexivity.
Qed.

Lemma ao_mode_text_uses_six_bits_witness :
  decode_ao_mode 0x45 = decode_ao_mode (N.land 0x45 63).
Proof.
  apply (proj1 (ao_mode_text_uses_six_bits 0x45)). discriminate.
Defined.

End Texts.
